(** * Verification of [scripts/export_nemo_ctc.py]

    The script converts a NeMo CTC checkpoint for sherpa-onnx: it writes
    the vocabulary to [tokens.txt], exports the network to [model.onnx]
    and patches five metadata entries into the exported graph.

    The embedding is shallow.  The loaded model [m] is the input; the two
    output files live in a finite map from paths to file contents; Python
    exceptions are the [Raise] results of a state-and-error monad whose
    state survives a raise, as a half-written file survives a traceback.
    Progress messages on standard output, the download and the
    deserialisation of the checkpoint are not modelled.

    Text is kept as the UTF-8 bytes of its code points, which is what a
    string literal of this file holds and what [open(..., encoding="utf-8")]
    puts on disk; two Python strings are equal exactly when these bytes
    are. *)

From stdpp Require Import base strings list gmap pretty.

Open Scope Z_scope.

(** ** Python primitives used by the script *)

Module Py.

Inductive exn : Type :=
| AttributeError
| IndexError
| TypeError
| ValueError
| FileNotFoundError
| DecodeError.

Inductive res (A : Type) : Type :=
| Ok (a : A)
| Raise (e : exn).
Arguments Ok {A} a.
Arguments Raise {A} e.

(** The values a configuration entry or a dict slot can hold.  [Obj r]
    stands for any other object (a float, a list, a nested config)
    through the text [r] that [str] prints for it. *)
Inductive value : Type :=
| NoneV
| Bool (b : bool)
| Int (z : Z)
| Str (s : string)
| Obj (r : string).

(** The line feed, ["\n"] in the source. *)
Definition nl : string := String (Ascii.ascii_of_nat 10) EmptyString.

(** [str(x)]. *)
Definition str (v : value) : string :=
  match v with
  | NoneV => "None"
  | Bool true => "True"
  | Bool false => "False"
  | Int z => pretty z
  | Str s => s
  | Obj r => r
  end.

(** [len(l)]. *)
Definition len {A : Type} (l : list A) : Z := Z.of_nat (length l).

(** [range(n)]: 0, 1, ..., n-1; empty when [n <= 0]. *)
Definition range (n : Z) : list Z := seqZ 0 n.

(** [enumerate(l)], counting from [start]. *)
Fixpoint enumerate_from {A : Type} (start : Z) (l : list A) : list (Z * A) :=
  match l with
  | [] => []
  | x :: l' => (start, x) :: enumerate_from (start + 1) l'
  end.
Definition enumerate {A : Type} (l : list A) : list (Z * A) :=
  enumerate_from 0 l.

(** A [dict] with string keys: insertion ordered, one slot per key.
    Assigning to a key that is there keeps its position. *)
Definition dict : Type := list (string * value).

Fixpoint dict_set (d : dict) (k : string) (v : value) : dict :=
  match d with
  | [] => [(k, v)]
  | (k', v') :: d' =>
      if String.eqb k' k then (k', v) :: d' else (k', v') :: dict_set d' k v
  end.

(** A dict display [{k1: v1, ..., kn: vn}] stores its pairs left to
    right. *)
Definition dict_display (kvs : list (string * value)) : dict :=
  foldl (λ d kv, dict_set d kv.1 kv.2) [] kvs.

(** [d.items()]. *)
Definition items (d : dict) : list (string * value) := d.

(** [cfg.get(key, default)] on a configuration node. *)
Definition get (cfg : gmap string value) (k : string) (dflt : value) : value :=
  default dflt (cfg !! k).

End Py.

Import Py.

(** ** The ONNX protobuf messages the script touches *)

Module Onnx.

Record StringStringEntryProto : Type := MkEntry {
  key : string;
  value : string
}.

Record NodeProto : Type := MkNode {
  op_type : string;
  node_input : list string;
  node_output : list string
}.

Record TensorProto : Type := MkTensor {
  tensor_name : string;
  dims : list Z;
  raw_data : list Z
}.

Record ValueInfoProto : Type := MkValueInfo {
  info_name : string;
  shape : list Z
}.

Record GraphProto : Type := MkGraph {
  node : list NodeProto;
  initializer : list TensorProto;
  input : list ValueInfoProto;
  output : list ValueInfoProto
}.

Record ModelProto : Type := MkModel {
  ir_version : Z;
  producer_name : string;
  opset_import : list (string * Z);
  graph : GraphProto;
  metadata_props : list StringStringEntryProto
}.

(** [ModelProto()]: every field at its protobuf default. *)
Definition default_model : ModelProto :=
  MkModel 0 "" [] (MkGraph [] [] [] []) [].

(** [model.metadata_props.add()]: a fresh entry with empty fields is
    appended; the caller receives a reference to it, which is the last
    position of the list. *)
Definition metadata_props_add (model : ModelProto) : ModelProto :=
  MkModel (ir_version model) (producer_name model) (opset_import model)
          (graph model) (metadata_props model ++ [MkEntry "" ""]).

(** Update of the entry that [add] returned. *)
Definition alter_last (f : StringStringEntryProto → StringStringEntryProto)
    (model : ModelProto) : ModelProto :=
  MkModel (ir_version model) (producer_name model) (opset_import model)
          (graph model)
          (alter f (Nat.pred (length (metadata_props model)))
                 (metadata_props model)).

(** [meta.key = k] and [meta.value = v]; protobuf accepts only [str] for
    a string field. *)
Definition set_key (k : Py.value) (model : ModelProto) : res ModelProto :=
  match k with
  | Str s => Ok (alter_last (λ e, MkEntry s (value e)) model)
  | _ => Raise TypeError
  end.

Definition set_value (v : Py.value) (model : ModelProto) : res ModelProto :=
  match v with
  | Str s => Ok (alter_last (λ e, MkEntry (key e) s) model)
  | _ => Raise TypeError
  end.

End Onnx.

Import Onnx.

(** ** The NeMo model object *)

(** An attribute that may be missing ([hasattr] is false), hold [None],
    or hold an object. *)
Inductive attr (A : Type) : Type :=
| Absent
| IsNone
| Val (a : A).
Arguments Absent {A}.
Arguments IsNone {A}.
Arguments Val {A} a.

(** The two members of the tokenizer interface the script calls. *)
Record Tokenizer : Type := MkTokenizer {
  vocab_size : Z;
  ids_to_tokens : list Z → res (list string)
}.

(** [EncDecCTCModel]: [cfg_labels] is [m.cfg.labels], which the
    configuration may lack, hold as [None], or hold as a list; the two
    [_cfg] maps are [m.preprocessor._cfg] and [m.encoder._cfg].  The
    exporter is third-party code: [export] is the graph that
    [m.export(path)] serialises when it succeeds, and [export_error] the
    exception with which it fails instead, if it does.  Whatever else the
    exporter may leave on disk (the side file [model.onnx_data] that
    lines 112-113 look for) is outside the model, and nothing below says
    that it is absent. *)
Record EncDecCTCModel : Type := MkCTC {
  tokenizer : attr Tokenizer;
  cfg_labels : attr (list string);
  preprocessor_cfg : gmap string Py.value;
  encoder_cfg : gmap string Py.value;
  export : ModelProto;
  export_error : option exn
}.

(** ** The world the script runs in *)

Inductive file : Type :=
| TextFile (content : string)
| OnnxFile (model : ModelProto).

(** Calls into the tokenizer, in the order they happen. *)
Inductive api_call : Type :=
| GetVocabSize
| IdsToTokens (ids : list Z).

Record world : Type := MkWorld {
  fs : gmap string file;
  tokenizer_calls : list api_call
}.

Definition M (A : Type) : Type := world → res A * world.

Definition M_ret {A : Type} (a : A) : M A := λ w, (Ok a, w).

Definition M_bind {A B : Type} (f : A → M B) (c : M A) : M B :=
  λ w, match c w with
       | (Ok a, w') => f a w'
       | (Raise e, w') => (Raise e, w')
       end.

#[global] Instance M_mret : MRet M := @M_ret.
#[global] Instance M_mbind : MBind M := @M_bind.

Definition raise {A : Type} (e : exn) : M A := λ w, (Raise e, w).

Definition lift {A : Type} (r : res A) : M A := λ w, (r, w).

(** [for x in xs: body x]. *)
Fixpoint for_ {A : Type} (xs : list A) (body : A → M unit) : M unit :=
  match xs with
  | [] => mret ()
  | x :: xs' => body x;; for_ xs' body
  end.

(** A loop that rebinds a local variable on every turn. *)
Fixpoint for_acc {A S : Type} (xs : list A) (s : S) (body : S → A → M S) : M S :=
  match xs with
  | [] => mret s
  | x :: xs' => s' ← body s x; for_acc xs' s' body
  end.

(** *** Files *)

(** [open(path, "w", encoding="utf-8")]: the file is created or
    truncated. *)
Definition open_w (path : string) : M unit :=
  λ w, (Ok (), MkWorld (<[path := TextFile ""]> (fs w)) (tokenizer_calls w)).

(** [f.write(s)] on the file opened at [path]. *)
Definition write (path : string) (s : string) : M unit :=
  λ w, match fs w !! path with
       | Some (TextFile c) =>
           (Ok (), MkWorld (<[path := TextFile (c +:+ s)]> (fs w))
                           (tokenizer_calls w))
       | _ => (Raise ValueError, w)
       end.

(** [onnx.load(path)] and [onnx.save(model, path)].  A file of no bytes
    decodes as the message with every field at its default; what
    protobuf makes of any other text is not modelled beyond its failing,
    and nothing below depends on it. *)
Definition onnx_load (path : string) : M ModelProto :=
  λ w, match fs w !! path with
       | Some (OnnxFile p) => (Ok p, w)
       | Some (TextFile EmptyString) => (Ok default_model, w)
       | Some (TextFile _) => (Raise DecodeError, w)
       | None => (Raise FileNotFoundError, w)
       end.

Definition onnx_save (model : ModelProto) (path : string) : M unit :=
  λ w, (Ok (), MkWorld (<[path := OnnxFile model]> (fs w)) (tokenizer_calls w)).

(** *** Attribute access on the model *)

(** [hasattr(m, 'tokenizer')]. *)
Definition hasattr_tokenizer (m : EncDecCTCModel) : bool :=
  match tokenizer m with
  | Absent => false
  | _ => true
  end.

(** [m.tokenizer]: [None] is Python's [None]. *)
Definition getattr_tokenizer (m : EncDecCTCModel) : M (option Tokenizer) :=
  match tokenizer m with
  | Absent => raise AttributeError
  | IsNone => mret None
  | Val t => mret (Some t)
  end.

Definition log_call (c : api_call) : M unit :=
  λ w, (Ok (), MkWorld (fs w) (tokenizer_calls w ++ [c])).

(** [m.tokenizer.vocab_size]. *)
Definition tokenizer_vocab_size (m : EncDecCTCModel) : M Z :=
  o ← getattr_tokenizer m;
  match o with
  | None => raise AttributeError
  | Some t => log_call GetVocabSize;; mret (vocab_size t)
  end.

(** [m.tokenizer.ids_to_tokens(ids)]. *)
Definition tokenizer_ids_to_tokens (m : EncDecCTCModel) (ids : list Z)
    : M (list string) :=
  o ← getattr_tokenizer m;
  match o with
  | None => raise AttributeError
  | Some t => log_call (IdsToTokens ids);; lift (ids_to_tokens t ids)
  end.

(** [list(m.cfg.labels)] and [len(m.cfg.labels)] need the labels: a
    missing key is an [AttributeError] of the attribute access, and
    [None] a [TypeError] of [list] or [len]. *)
Definition get_labels (m : EncDecCTCModel) : M (list string) :=
  match cfg_labels m with
  | Val labels => mret labels
  | IsNone => raise TypeError
  | Absent => raise AttributeError
  end.

(** [l[0]]. *)
Definition index0 {A : Type} (l : list A) : M A :=
  match l with
  | x :: _ => mret x
  | [] => raise IndexError
  end.

(** ** The script *)

(** The replacement literal of line 59, as it stands in the source. *)
Definition space_marker : string := "‚ñÅ".

(** [f"{token} {i}\n"]. *)
Definition fmt_line (token : string) (i : Z) : string :=
  token +:+ " " +:+ str (Int i) +:+ nl.

(** [hasattr(m, 'tokenizer') and m.tokenizer is not None]; [and] reads
    the attribute only when [hasattr] holds. *)
Definition tokenizer_is_set (m : EncDecCTCModel) : M bool :=
  if hasattr_tokenizer m then
    o ← getattr_tokenizer m;
    mret (match o with Some _ => true | None => false end)
  else mret false.

(** Lines 58-59: the replacement made for sherpa compatibility. *)
Definition replace_special (token : string) : string :=
  if String.eqb token " " then space_marker else token.

(** Lines 56-60: the body of the loop over the token ids. *)
Definition write_token_line (m : EncDecCTCModel) (tokens_path : string) (i : Z)
    : M unit :=
  toks ← tokenizer_ids_to_tokens m [i];
  token ← index0 toks;
  let token := replace_special token in
  write tokens_path (fmt_line token i).

(** Lines 52-61: the vocabulary of a BPE model comes from its tokenizer. *)
Definition write_bpe_tokens (m : EncDecCTCModel) (tokens_path : string) : M unit :=
  vocab_size ← tokenizer_vocab_size m;
  open_w tokens_path;;
  for_ (range vocab_size) (write_token_line m tokens_path);;
  write tokens_path (fmt_line "<blk>" vocab_size).

(** Lines 64-69: a character model lists its labels. *)
Definition write_char_tokens (m : EncDecCTCModel) (tokens_path : string) : M unit :=
  labels ← get_labels m;
  open_w tokens_path;;
  for_ (enumerate labels) (λ it,
    write tokens_path (fmt_line it.2 it.1));;
  write tokens_path (fmt_line "<blk>" (len labels)).

(** Lines 48-69: the vocabulary file. *)
Definition write_tokens (m : EncDecCTCModel) (tokens_path : string) : M unit :=
  b ← tokenizer_is_set m;
  if (b : bool) then write_bpe_tokens m tokens_path
  else write_char_tokens m tokens_path.

(** Line 74: [m.export(str(model_path))]. *)
Definition export_model (m : EncDecCTCModel) (model_path : string) : M unit :=
  match export_error m with
  | Some e => raise e
  | None => onnx_save (export m) model_path
  end.

(** Lines 83-86. *)
Definition get_vocab_size (m : EncDecCTCModel) : M Z :=
  b ← tokenizer_is_set m;
  if (b : bool) then
    n ← tokenizer_vocab_size m; mret (n + 1)
  else
    labels ← get_labels m; mret (len labels + 1).

(** Lines 89-90. *)
Definition normalize_type (m : EncDecCTCModel) : string :=
  str (get (preprocessor_cfg m) "normalize" (Str "")).

Definition subsampling_factor (m : EncDecCTCModel) : string :=
  str (get (encoder_cfg m) "subsampling_factor" (Int 4)).

(** Lines 93-99. *)
Definition metadata (m : EncDecCTCModel) (vocab_size : Z) : dict :=
  dict_display
    [ ("vocab_size", Str (str (Int vocab_size)));
      ("normalize_type", Str (normalize_type m));
      ("subsampling_factor", Str (subsampling_factor m));
      ("model_type", Str "EncDecCTCModelBPE");
      ("version", Str "1") ].

(** Lines 101-104: one turn of the loop. *)
Definition add_entry (model : ModelProto) (kv : string * Py.value) : M ModelProto :=
  let model := metadata_props_add model in
  model ← lift (set_key (Str kv.1) model);
  lift (set_value kv.2 model).

(** Lines 80-106: the metadata patch step. *)
Definition patch_metadata (m : EncDecCTCModel) (model_path : string) : M unit :=
  model ← onnx_load model_path;
  vocab_size ← get_vocab_size m;
  model ← for_acc (items (metadata m vocab_size)) model add_entry;
  onnx_save model model_path.

(** [output_dir / name]. *)
Definition path_join (dir name : string) : string := dir +:+ "/" +:+ name.

(** The whole run, from the loaded model on. *)
Definition main (m : EncDecCTCModel) (output_dir : string) : M unit :=
  write_tokens m (path_join output_dir "tokens.txt");;
  export_model m (path_join output_dir "model.onnx");;
  patch_metadata m (path_join output_dir "model.onnx").

(** ** Test fixtures *)

(** A tokenizer over a fixed table of token texts. *)
Fixpoint lookup_ids (texts : list string) (ids : list Z) : res (list string) :=
  match ids with
  | [] => Ok []
  | i :: ids' =>
      match (if bool_decide (0 ≤ i) then texts !! Z.to_nat i else None) with
      | None => Raise IndexError
      | Some t =>
          match lookup_ids texts ids' with
          | Ok ts => Ok (t :: ts)
          | Raise e => Raise e
          end
      end
  end.

Definition synthetic_tokenizer (texts : list string) : Tokenizer :=
  MkTokenizer (len texts) (lookup_ids texts).

Definition empty_graph : ModelProto :=
  MkModel 8 "pytorch" [("", 17)] (MkGraph [] [] [] []) [].

Definition bpe_model (texts : list string) : EncDecCTCModel :=
  MkCTC (Val (synthetic_tokenizer texts)) Absent ∅ ∅ empty_graph None.

Definition char_model (labels : list string) : EncDecCTCModel :=
  MkCTC IsNone (Val labels) ∅ ∅ empty_graph None.

(** A character model whose two configuration values are set. *)
Definition configured_model : EncDecCTCModel :=
  MkCTC IsNone (Val ["x"; "y"])
        {[ "normalize" := Str "per_feature" ]}
        {[ "subsampling_factor" := Int 8 ]}
        empty_graph None.

Definition empty_world : world := MkWorld ∅ [].

(** A world in which the graph has just been exported. *)
Definition exported_world : world :=
  MkWorld {[ "model.onnx" := OnnxFile empty_graph ]} [].

(** The text of a file made of the given lines, each ended by a line
    feed. *)
Definition text_of_lines (ls : list string) : string :=
  foldr (λ l acc, l +:+ nl +:+ acc) "" ls.


(** ** What a tokens file holds *)

(** A vocabulary table: token text and id, in line order. *)
Definition table : Type := list (string * Z).

Definition concat_str (ss : list string) : string := foldr String.append "" ss.

(** The text of a table: one [fmt_line] per entry. *)
Definition render (tb : table) : string :=
  concat_str ((λ e, fmt_line e.1 e.2) <$> tb).

(** The number of lines of a text: its line feeds. *)
Fixpoint count_lines (s : string) : nat :=
  match s with
  | EmptyString => 0%nat
  | String c s' =>
      if Ascii.eqb c (Ascii.ascii_of_nat 10) then S (count_lines s')
      else count_lines s'
  end.

(** The number of code points of a UTF-8 text: the bytes that are not
    continuation bytes [10xxxxxx]. *)
Fixpoint code_points (s : string) : nat :=
  match s with
  | EmptyString => 0%nat
  | String c s' =>
      if bool_decide (128 ≤ Z.of_nat (Ascii.nat_of_ascii c) < 192)
      then code_points s' else S (code_points s')
  end.

Definition bytes (s : string) : list Z :=
  (λ c, Z.of_nat (Ascii.nat_of_ascii c)) <$> String.list_ascii_of_string s.

(** The entries the script writes for a character model: label [i] with
    id [i], then the blank. *)
Definition char_table (labels : list string) : table :=
  zip labels (seqZ 0 (len labels)) ++ [("<blk>", len labels)].

(** What the tokenizer [t] answers for the single id [i]. *)
Definition token_text (t : Tokenizer) (i : Z) : option string :=
  match ids_to_tokens t [i] with
  | Ok (x :: _) => Some x
  | _ => None
  end.

(** The entries the script writes for a BPE model: the text of id [i],
    after the replacement, with id [i]; then the blank. *)
Definition bpe_entry (t : Tokenizer) (i : Z) : string * Z :=
  (replace_special (default "" (token_text t i)), i).

Definition bpe_table (t : Tokenizer) : table :=
  (bpe_entry t <$> seqZ 0 (vocab_size t)) ++ [("<blk>", vocab_size t)].

(** The raw vocabulary count: the tokenizer's vocabulary size when the
    model has a tokenizer, the number of labels otherwise. *)
Definition raw_count (m : EncDecCTCModel) : option Z :=
  match tokenizer m with
  | Val t => Some (vocab_size t)
  | _ => match cfg_labels m with
         | Val labels => Some (len labels)
         | _ => None
         end
  end.

(** The five entries the patch step appends for vocabulary size [n]. *)
Definition patch_entries (m : EncDecCTCModel) (n : Z) : list StringStringEntryProto :=
  [ MkEntry "vocab_size" (pretty n);
    MkEntry "normalize_type" (normalize_type m);
    MkEntry "subsampling_factor" (subsampling_factor m);
    MkEntry "model_type" "EncDecCTCModelBPE";
    MkEntry "version" "1" ].

Definition with_metadata_props (p : ModelProto) (es : list StringStringEntryProto)
    : ModelProto :=
  MkModel (ir_version p) (producer_name p) (opset_import p) (graph p) es.

(** The table behind the tokens file of a run that completes. *)
Definition tokens_table (m : EncDecCTCModel) : table :=
  match tokenizer m with
  | Val t => bpe_table t
  | _ => char_table (match cfg_labels m with Val labels => labels | _ => [] end)
  end.

(** The tokenizer calls of a vocabulary emission that completes. *)
Definition emission_calls (m : EncDecCTCModel) : list api_call :=
  match tokenizer m with
  | Val t => GetVocabSize :: ((λ i, IdsToTokens [i]) <$> seqZ 0 (vocab_size t))
  | _ => []
  end.

(** What the vocabulary emission needs from the model to complete: a
    tokenizer that answers with at least one text for each single id
    below its vocabulary size, or else a label list. *)
Definition can_emit (m : EncDecCTCModel) : Prop :=
  match tokenizer m with
  | Val t => ∀ i, 0 ≤ i < vocab_size t → is_Some (token_text t i)
  | _ => ∃ labels, cfg_labels m = Val labels
  end.

(** The keys of the metadata record. *)
Definition metadata_keys : list string :=
  ["vocab_size"; "normalize_type"; "subsampling_factor"; "model_type"; "version"].

(** The tokenizer calls the computation of lines 83-86 makes. *)
Definition vocab_size_calls (m : EncDecCTCModel) : list api_call :=
  match tokenizer m with
  | Val _ => [GetVocabSize]
  | _ => []
  end.

(** The graph after the patch step, for raw vocabulary count [n]. *)
Definition patched (m : EncDecCTCModel) (n : Z) (p : ModelProto) : ModelProto :=
  with_metadata_props p (metadata_props p ++ patch_entries m (n + 1)).

(** The world after the patch step has run on a world whose file [path]
    held [p]. *)
Definition patched_world (m : EncDecCTCModel) (n : Z) (p : ModelProto)
    (path : string) (w : world) : world :=
  MkWorld (<[path := OnnxFile (patched m n p)]> (fs w))
          (tokenizer_calls w ++ vocab_size_calls m).

(** How often [k] occurs as a key of the metadata entries [es]. *)
Definition count_key (k : string) (es : list StringStringEntryProto) : nat :=
  length (filter (λ e, key e = k) es).

(** ** Further definitions: failures, frames, characters, paths *)

(** The exception with which the loop body stops at id [i] when the
    tokenizer gives no text for it: the tokenizer's own exception, or
    the [IndexError] of [[0]] on an empty answer. *)
Definition token_error (t : Tokenizer) (i : Z) : exn :=
  match ids_to_tokens t [i] with
  | Raise e => e
  | _ => IndexError
  end.

(** The exception of reading the labels of a model that has none. *)
Definition labels_error (m : EncDecCTCModel) : exn :=
  match cfg_labels m with
  | IsNone => TypeError
  | _ => AttributeError
  end.

(** A computation that leaves every file outside [paths] as it was,
    whatever its outcome. *)
Definition touches_only {A : Type} (paths : list string) (c : M A) : Prop :=
  ∀ (w : world) (q : string), q ∉ paths → fs (c w).2 !! q = fs w !! q.

(** How often the character [c] occurs in [s]. *)
Fixpoint count_char (c : Ascii.ascii) (s : string) : nat :=
  match s with
  | EmptyString => 0%nat
  | String c' s' =>
      if Ascii.eqb c' c then S (count_char c s') else count_char c s'
  end.

Definition space_char : Ascii.ascii := Ascii.ascii_of_nat 32.
Definition nl_char : Ascii.ascii := Ascii.ascii_of_nat 10.

(** Lines 30-35: where the models live.  A pure path is its anchor (drive
    and root; empty for a relative path) and the components after it;
    [p / name] appends the component [name]. *)
Record Path : Type := MkPath {
  anchor : string;
  parts : list string
}.

Definition truediv (p : Path) (name : string) : Path :=
  MkPath (anchor p) (parts p ++ [name]).

(** The host the script runs on: [os.name], [os.environ], [Path.home()],
    and the [Path(...)] constructor of its path flavour. *)
Record Host : Type := MkHost {
  os_name : string;
  environ : gmap string string;
  home : Path;
  path_of : string → Path
}.

(** [os.environ.get(key, default)]. *)
Definition environ_get (h : Host) (k dflt : string) : string :=
  default dflt (environ h !! k).

Definition models_dir (h : Host) : Path :=
  if String.eqb (os_name h) "nt" then
    truediv (truediv (path_of h (environ_get h "LOCALAPPDATA" "")) "gibb.eri.sh") "models"
  else
    truediv (truediv (truediv (truediv (home h) "Library") "Application Support")
                     "gibb.eri.sh") "models".

Definition output_dir (h : Host) : Path := truediv (models_dir h) "nemo-conformer-ca".

(** Lines 48 and 72. *)
Definition tokens_path (h : Host) : Path := truediv (output_dir h) "tokens.txt".
Definition model_path (h : Host) : Path := truediv (output_dir h) "model.onnx".

(** [str(p)] for the POSIX flavour: the anchor, then the components
    joined by a slash; the empty path prints as a dot. *)
Fixpoint join_parts (ps : list string) : string :=
  match ps with
  | [] => ""
  | [x] => x
  | x :: ps' => x +:+ "/" +:+ join_parts ps'
  end.

Definition posix_str (p : Path) : string :=
  match anchor p, parts p with
  | EmptyString, [] => "."
  | a, ps => a +:+ join_parts ps
  end.

(** The empty relative path, [Path("")]. *)
Definition empty_path : Path := MkPath "" [].

(** Hosts for the examples.  Neither run hands its constructor anything
    but the empty string. *)
Definition mac_host : Host :=
  MkHost "posix" ∅ (MkPath "/" ["Users"; "me"]) (λ _, empty_path).

Definition windows_host_no_appdata : Host :=
  MkHost "nt" ∅ (MkPath ("C:" +:+ String (Ascii.ascii_of_nat 92) "") ["Users"; "me"])
         (λ _, empty_path).

(** A tokenizer that announces three tokens and knows two. *)
Definition short_tokenizer : Tokenizer := MkTokenizer 3 (lookup_ids ["a"; "b"]).

Definition short_model : EncDecCTCModel :=
  MkCTC (Val short_tokenizer) Absent ∅ ∅ empty_graph None.

(** A model with neither a tokenizer nor labels. *)
Definition bare_model : EncDecCTCModel :=
  MkCTC Absent Absent ∅ ∅ empty_graph None.

(** ** The text a tokens file is expected to hold *)

(** One entry as the format has it: the text, a space, the id in
    decimal, a line feed. *)
Definition entry_text (text : string) (id : Z) : string :=
  text +:+ " " +:+ pretty id +:+ nl.

(** The entries for [texts], numbered from [start] on. *)
Fixpoint entries_text (start : Z) (texts : list string) : string :=
  match texts with
  | [] => ""
  | t :: texts' => entry_text t start +:+ entries_text (start + 1) texts'
  end.

(** A tokens file: the texts numbered from zero, then the blank entry
    with the id [blank]. *)
Definition tokens_text (texts : list string) (blank : Z) : string :=
  entries_text 0 texts +:+ entry_text "<blk>" blank.

(** The lines of a text: it is cut at its line feeds, which are left out;
    [acc] is the line being read. *)
Fixpoint lines_from (s acc : string) : list string :=
  match s with
  | EmptyString => match acc with EmptyString => [] | _ => [acc] end
  | String c s' =>
      if Ascii.eqb c (Ascii.ascii_of_nat 10) then acc :: lines_from s' ""
      else lines_from s' (acc +:+ String c "")
  end.

Definition lines (s : string) : list string := lines_from s "".

(** The texts of the real entries the script writes for [m]: the
    labels, or the tokenizer's texts after the replacement of line 59. *)
Definition vocabulary_texts (m : EncDecCTCModel) : list string :=
  match tokenizer m with
  | Val t => (λ i, replace_special (default "" (token_text t i))) <$> seqZ 0 (vocab_size t)
  | _ => match cfg_labels m with Val labels => labels | _ => [] end
  end.

(** No text of the vocabulary holds a line feed, and the size that a
    tokenizer reports is a size. *)
Definition plain_vocabulary (m : EncDecCTCModel) : Prop :=
  match tokenizer m with
  | Val t =>
      0 ≤ vocab_size t
      ∧ ∀ i x, 0 ≤ i < vocab_size t → token_text t i = Some x → count_lines x = 0%nat
  | _ => ∀ labels x, cfg_labels m = Val labels → x ∈ labels → count_lines x = 0%nat
  end.

(** A tokenizer that reports the size -1. *)
Definition negative_model : EncDecCTCModel :=
  MkCTC (Val (MkTokenizer (-1) (lookup_ids []))) Absent ∅ ∅ empty_graph None.

(** A character model whose labels are kept as [None]. *)
Definition none_labels_model : EncDecCTCModel :=
  MkCTC IsNone IsNone ∅ ∅ empty_graph None.

(** A model whose exporter fails. *)
Definition failing_export_model : EncDecCTCModel :=
  MkCTC IsNone (Val ["x"; "y"]) ∅ ∅ empty_graph (Some ValueError).

(** Case analysis on membership in an explicit list. *)
Ltac elem_of_cases H :=
  repeat (apply elem_of_cons in H as [->|H]; [|]);
  [..|by apply elem_of_nil in H].

(** * Proofs *)

(** ** Strings *)

Lemma str_app_assoc (a b c : string) : (a +:+ b) +:+ c = a +:+ (b +:+ c).
Proof.
  induction a as [|ch a IH]; [done|].
  unfold String.app in *. cbn [String.append]. by rewrite IH.
Qed.

Lemma str_app_nil_r (a : string) : a +:+ "" = a.
Proof.
  induction a as [|ch a IH]; [done|].
  unfold String.app in *. cbn [String.append]. by rewrite IH.
Qed.

Lemma concat_str_app (xs ys : list string) :
  concat_str (xs ++ ys) = concat_str xs +:+ concat_str ys.
Proof.
  induction xs as [|x xs IH]; [done|].
  cbn [app]. unfold concat_str in *. cbn [foldr].
  by rewrite IH, str_app_assoc.
Qed.

Lemma render_app (tb1 tb2 : table) :
  render (tb1 ++ tb2) = render tb1 +:+ render tb2.
Proof. unfold render. by rewrite fmap_app, concat_str_app. Qed.

Lemma render_cons (e : string * Z) (tb : table) :
  render (e :: tb) = fmt_line e.1 e.2 +:+ render tb.
Proof. reflexivity. Qed.

Lemma render_single (token : string) (i : Z) :
  render [(token, i)] = fmt_line token i.
Proof. unfold render. cbn. apply str_app_nil_r. Qed.

Lemma count_lines_app (a b : string) :
  count_lines (a +:+ b) = (count_lines a + count_lines b)%nat.
Proof.
  induction a as [|ch a IH]; [done|].
  unfold String.app in *. cbn [String.append count_lines]. rewrite IH.
  by destruct (Ascii.eqb ch _).
Qed.

(** ** The monad *)

Lemma bind_run {A B : Type} (c : M A) (f : A → M B) (w : world) :
  (c ≫= f) w = match c w with
               | (Ok a, w') => f a w'
               | (Raise e, w') => (Raise e, w')
               end.
Proof. reflexivity. Qed.

Lemma bind_ok {A B : Type} (c : M A) (f : A → M B) (w w' : world) (a : A) :
  c w = (Ok a, w') → (c ≫= f) w = f a w'.
Proof. intros H. by rewrite bind_run, H. Qed.

Lemma bind_ok_inv {A B : Type} (c : M A) (f : A → M B) (w w2 : world) (b : B) :
  (c ≫= f) w = (Ok b, w2) → ∃ a w1, c w = (Ok a, w1) ∧ f a w1 = (Ok b, w2).
Proof.
  rewrite bind_run. destruct (c w) as [[a|e] w1]; [eauto|discriminate].
Qed.

Lemma open_w_run (path : string) (w : world) :
  open_w path w = (Ok (), MkWorld (<[path := TextFile ""]> (fs w)) (tokenizer_calls w)).
Proof. reflexivity. Qed.

Lemma write_run (path s c : string) (files : gmap string file) (calls : list api_call) :
  write path s (MkWorld (<[path := TextFile c]> files) calls)
  = (Ok (), MkWorld (<[path := TextFile (c +:+ s)]> files) calls).
Proof.
  unfold write. cbn [fs tokenizer_calls].
  by rewrite lookup_insert_eq, insert_insert_eq.
Qed.

Lemma for_cons {A : Type} (x : A) (xs : list A) (body : A → M unit) (w : world) :
  for_ (x :: xs) body w = match body x w with
                          | (Ok _, w') => for_ xs body w'
                          | (Raise e, w') => (Raise e, w')
                          end.
Proof. reflexivity. Qed.

(** A loop whose body only writes a line appends the lines in order. *)
Lemma for_write_run {A : Type} (xs : list A) (line : A → string)
    (path c : string) (files : gmap string file) (calls : list api_call) :
  for_ xs (λ x, write path (line x)) (MkWorld (<[path := TextFile c]> files) calls)
  = (Ok (), MkWorld (<[path := TextFile (c +:+ concat_str (line <$> xs))]> files) calls).
Proof.
  revert c. induction xs as [|x xs IH]; intros c.
  - cbn. by rewrite str_app_nil_r.
  - rewrite for_cons, write_run, IH. cbn [fmap list_fmap concat_str foldr].
    by rewrite str_app_assoc.
Qed.

(** ** The character branch *)

Lemma enumerate_from_zip (start : Z) (labels : list string) :
  (λ it : Z * string, (it.2, it.1)) <$> enumerate_from start labels
  = zip labels (seqZ start (len labels)).
Proof.
  revert start. induction labels as [|t labels IH]; intros start; [done|].
  cbn [enumerate_from fmap list_fmap]. rewrite (seqZ_cons start).
  - cbn [zip zip_with]. f_equal. rewrite IH. do 2 f_equal; unfold len; cbn [length]; lia.
  - unfold len. cbn [length]. lia.
Qed.

Lemma write_char_tokens_run (m : EncDecCTCModel) (labels : list string)
    (path : string) (w : world) :
  cfg_labels m = Val labels →
  write_char_tokens m path w
  = (Ok (), MkWorld (<[path := TextFile (render (char_table labels))]> (fs w))
                    (tokenizer_calls w)).
Proof.
  intros Hl. unfold write_char_tokens, get_labels. rewrite Hl.
  rewrite bind_run. cbn [mret M_mret M_ret]. rewrite bind_run, open_w_run.
  rewrite bind_run, for_write_run, write_run.
  do 3 f_equal. unfold char_table. rewrite render_app, render_single.
  rewrite <- enumerate_from_zip. unfold render, enumerate.
  rewrite <- list_fmap_compose. cbn. done.
Qed.

Lemma write_char_tokens_no_labels (m : EncDecCTCModel) (path : string) (w : world) :
  (∀ labels, cfg_labels m ≠ Val labels) →
  write_char_tokens m path w = (Raise (labels_error m), w).
Proof.
  intros Hl. unfold write_char_tokens, get_labels, labels_error.
  destruct (cfg_labels m) as [| |labels]; [done..|]. by destruct (Hl labels).
Qed.

(** ** The tokenizer branch *)

Lemma tokenizer_is_set_run (m : EncDecCTCModel) (w : world) :
  tokenizer_is_set m w
  = (Ok (match tokenizer m with Val _ => true | _ => false end), w).
Proof.
  unfold tokenizer_is_set, hasattr_tokenizer, getattr_tokenizer.
  by destruct (tokenizer m).
Qed.

Lemma tokenizer_vocab_size_run (m : EncDecCTCModel) (t : Tokenizer) (w : world) :
  tokenizer m = Val t →
  tokenizer_vocab_size m w
  = (Ok (vocab_size t), MkWorld (fs w) (tokenizer_calls w ++ [GetVocabSize])).
Proof.
  intros Ht. unfold tokenizer_vocab_size, getattr_tokenizer. by rewrite Ht.
Qed.

Lemma write_token_line_run (m : EncDecCTCModel) (t : Tokenizer) (path : string)
    (i : Z) (x c : string) (files : gmap string file) (calls : list api_call) :
  tokenizer m = Val t →
  token_text t i = Some x →
  write_token_line m path i (MkWorld (<[path := TextFile c]> files) calls)
  = (Ok (), MkWorld (<[path := TextFile (c +:+ fmt_line (replace_special x) i)]> files)
                    (calls ++ [IdsToTokens [i]])).
Proof.
  intros Ht Hx. unfold write_token_line, tokenizer_ids_to_tokens, getattr_tokenizer.
  rewrite Ht. unfold token_text in Hx.
  rewrite !bind_run. cbn [mret M_mret M_ret log_call lift fs tokenizer_calls].
  rewrite !bind_run. cbn [log_call lift fs tokenizer_calls].
  destruct (ids_to_tokens t [i]) as [[|y toks]|e]; try discriminate.
  injection Hx as ->. cbn [index0 mret M_mret M_ret]. apply write_run.
Qed.

Lemma write_token_line_fail (m : EncDecCTCModel) (t : Tokenizer) (path : string)
    (i : Z) (w : world) :
  tokenizer m = Val t →
  token_text t i = None →
  ∃ e w', write_token_line m path i w = (Raise e, w').
Proof.
  intros Ht Hx. unfold write_token_line, tokenizer_ids_to_tokens, getattr_tokenizer.
  rewrite Ht. unfold token_text in Hx.
  rewrite !bind_run. cbn [mret M_mret M_ret log_call lift fs tokenizer_calls].
  rewrite !bind_run. cbn [log_call lift fs tokenizer_calls].
  destruct (ids_to_tokens t [i]) as [[|y toks]|e]; try discriminate; cbn; eauto.
Qed.

Lemma for_token_lines_run (m : EncDecCTCModel) (t : Tokenizer) (path : string)
    (ids : list Z) (c : string) (files : gmap string file) (calls : list api_call) :
  tokenizer m = Val t →
  (∀ i, i ∈ ids → is_Some (token_text t i)) →
  for_ ids (write_token_line m path) (MkWorld (<[path := TextFile c]> files) calls)
  = (Ok (), MkWorld (<[path := TextFile (c +:+ render (bpe_entry t <$> ids))]> files)
                    (calls ++ ((λ i, IdsToTokens [i]) <$> ids))).
Proof.
  intros Ht. revert c calls. induction ids as [|i ids IH]; intros c calls Hall.
  - cbn. by rewrite str_app_nil_r, app_nil_r.
  - destruct (Hall i) as [x Hx]; [by left|].
    rewrite for_cons, (write_token_line_run m t path i x) by done.
    rewrite IH by (intros j Hj; apply Hall; by right).
    cbn [fmap list_fmap]. rewrite <- app_assoc. cbn [app].
    do 3 f_equal. unfold render. cbn [fmap list_fmap concat_str foldr].
    rewrite str_app_assoc. unfold bpe_entry at 2. by rewrite Hx.
Qed.

Lemma for_token_lines_inv (m : EncDecCTCModel) (t : Tokenizer) (path : string)
    (ids : list Z) (c : string) (files : gmap string file) (calls : list api_call)
    (w' : world) :
  tokenizer m = Val t →
  for_ ids (write_token_line m path) (MkWorld (<[path := TextFile c]> files) calls)
  = (Ok (), w') →
  ∀ i, i ∈ ids → is_Some (token_text t i).
Proof.
  intros Ht. revert c calls. induction ids as [|i ids IH]; intros c calls Hrun j Hj.
  - by apply elem_of_nil in Hj.
  - rewrite for_cons in Hrun.
    destruct (token_text t i) as [x|] eqn:Hx.
    + rewrite (write_token_line_run m t path i x) in Hrun by done.
      apply elem_of_cons in Hj as [->|Hj]; [by rewrite Hx|].
      by eapply IH.
    + destruct (write_token_line_fail m t path i
                  (MkWorld (<[path := TextFile c]> files) calls) Ht Hx)
        as (e & w1 & Hfail).
      rewrite Hfail in Hrun. discriminate.
Qed.

Lemma write_bpe_tokens_run (m : EncDecCTCModel) (t : Tokenizer) (path : string)
    (w : world) :
  tokenizer m = Val t →
  (∀ i, 0 ≤ i < vocab_size t → is_Some (token_text t i)) →
  write_bpe_tokens m path w
  = (Ok (), MkWorld (<[path := TextFile (render (bpe_table t))]> (fs w))
                    (tokenizer_calls w
                     ++ GetVocabSize :: ((λ i, IdsToTokens [i]) <$> seqZ 0 (vocab_size t)))).
Proof.
  intros Ht Hall. unfold write_bpe_tokens.
  rewrite (bind_ok _ _ _ _ _ (tokenizer_vocab_size_run m t w Ht)).
  rewrite bind_run, open_w_run. cbn [fs tokenizer_calls].
  rewrite bind_run. unfold range.
  rewrite (for_token_lines_run m t) by (try done; intros i Hi; apply Hall; set_solver).
  rewrite write_run. do 2 f_equal.
  - unfold bpe_table. by rewrite render_app, render_single.
  - by rewrite <- app_assoc.
Qed.

Lemma write_bpe_tokens_inv (m : EncDecCTCModel) (t : Tokenizer) (path : string)
    (w w' : world) :
  tokenizer m = Val t →
  write_bpe_tokens m path w = (Ok (), w') →
  ∀ i, 0 ≤ i < vocab_size t → is_Some (token_text t i).
Proof.
  intros Ht Hrun i Hi. unfold write_bpe_tokens in Hrun.
  rewrite (bind_ok _ _ _ _ _ (tokenizer_vocab_size_run m t w Ht)) in Hrun.
  rewrite bind_run, open_w_run in Hrun. cbn [fs tokenizer_calls] in Hrun.
  apply bind_ok_inv in Hrun as ([] & w1 & Hloop & _).
  eapply for_token_lines_inv; [done..|]. unfold range. set_solver.
Qed.

Lemma write_tokens_branch (m : EncDecCTCModel) (path : string) (w : world) :
  write_tokens m path w
  = match tokenizer m with
    | Val _ => write_bpe_tokens m path w
    | _ => write_char_tokens m path w
    end.
Proof.
  unfold write_tokens. rewrite bind_run, tokenizer_is_set_run.
  by destruct (tokenizer m).
Qed.

(** ** The metadata patch step *)

Lemma get_vocab_size_run (m : EncDecCTCModel) (n : Z) (w : world) :
  raw_count m = Some n →
  get_vocab_size m w
  = (Ok (n + 1), MkWorld (fs w) (tokenizer_calls w ++ vocab_size_calls m)).
Proof.
  unfold raw_count, get_vocab_size, vocab_size_calls. intros Hn.
  rewrite bind_run, tokenizer_is_set_run.
  destruct (tokenizer m) as [| |t] eqn:Ht.
  1,2: unfold get_labels; destruct (cfg_labels m) as [| |labels]; [discriminate..|];
       injection Hn as <-; cbn; rewrite app_nil_r; by destruct w.
  injection Hn as <-.
  by rewrite (bind_ok _ _ _ _ _ (tokenizer_vocab_size_run m t w Ht)).
Qed.

Lemma get_vocab_size_fail (m : EncDecCTCModel) (w : world) :
  raw_count m = None → get_vocab_size m w = (Raise (labels_error m), w).
Proof.
  unfold raw_count, get_vocab_size, labels_error. intros Hn.
  rewrite bind_run, tokenizer_is_set_run.
  destruct (tokenizer m) as [| |t]; [| |discriminate];
    unfold get_labels; by destruct (cfg_labels m).
Qed.

Lemma metadata_display (v1 v2 v3 v4 v5 : Py.value) :
  dict_display [ ("vocab_size", v1); ("normalize_type", v2);
                 ("subsampling_factor", v3); ("model_type", v4); ("version", v5) ]
  = [ ("vocab_size", v1); ("normalize_type", v2);
      ("subsampling_factor", v3); ("model_type", v4); ("version", v5) ].
Proof. reflexivity. Qed.

Lemma metadata_items (m : EncDecCTCModel) (n : Z) :
  items (metadata m n)
  = [ ("vocab_size", Str (pretty n));
      ("normalize_type", Str (normalize_type m));
      ("subsampling_factor", Str (subsampling_factor m));
      ("model_type", Str "EncDecCTCModelBPE");
      ("version", Str "1") ].
Proof. unfold items, metadata. apply metadata_display. Qed.

Lemma add_entry_run (model : ModelProto) (k s : string) (w : world) :
  add_entry model (k, Str s) w
  = (Ok (with_metadata_props model (metadata_props model ++ [MkEntry k s])), w).
Proof.
  unfold add_entry, set_key, set_value, lift, alter_last, metadata_props_add,
    with_metadata_props.
  rewrite bind_run. cbn [metadata_props ir_version producer_name opset_import graph fst snd].
  rewrite !length_app. cbn [length].
  replace (Nat.pred (length (metadata_props model) + 1))
    with (length (metadata_props model) + 0)%nat by lia.
  rewrite alter_app_r. cbn [alter list_alter]. rewrite length_app. cbn [length].
  replace (Nat.pred (length (metadata_props model) + 1))
    with (length (metadata_props model) + 0)%nat by lia.
  by rewrite alter_app_r.
Qed.

Lemma add_entry_type_error (model : ModelProto) (k : string) (v : Py.value) (w : world) :
  (∀ s, v ≠ Str s) → add_entry model (k, v) w = (Raise TypeError, w).
Proof.
  intros Hv. unfold add_entry, set_key, set_value, lift. rewrite bind_run.
  destruct v; try done. by destruct (Hv s).
Qed.

Lemma for_acc_add_entries (kvs : list (string * string)) (model : ModelProto) (w : world) :
  for_acc ((λ kv, (kv.1, Str kv.2)) <$> kvs) model add_entry w
  = (Ok (with_metadata_props model
           (metadata_props model ++ ((λ kv, MkEntry kv.1 kv.2) <$> kvs))), w).
Proof.
  revert model. induction kvs as [|[k s] kvs IH]; intros model.
  - cbn. rewrite app_nil_r. by destruct model.
  - cbn [fmap list_fmap for_acc fst snd]. rewrite bind_run, add_entry_run, IH.
    unfold with_metadata_props. cbn [metadata_props ir_version producer_name opset_import graph].
    by rewrite <- app_assoc.
Qed.

Lemma patch_metadata_run (m : EncDecCTCModel) (n : Z) (p : ModelProto)
    (path : string) (w : world) :
  fs w !! path = Some (OnnxFile p) →
  raw_count m = Some n →
  patch_metadata m path w
  = (Ok (), MkWorld (<[path := OnnxFile (patched m n p)]> (fs w))
                    (tokenizer_calls w ++ vocab_size_calls m)).
Proof.
  intros Hp Hn. unfold patch_metadata.
  rewrite bind_run. unfold onnx_load at 1. rewrite Hp.
  rewrite (bind_ok _ _ _ _ _ (get_vocab_size_run m n w Hn)).
  rewrite metadata_items.
  rewrite bind_run.
  pose proof (for_acc_add_entries
             [ ("vocab_size", pretty (n + 1)); ("normalize_type", normalize_type m);
               ("subsampling_factor", subsampling_factor m);
               ("model_type", "EncDecCTCModelBPE"); ("version", "1") ]) as Hadd.
  cbn [fmap list_fmap fst snd] in Hadd. rewrite Hadd.
  reflexivity.
Qed.

(** The decimal text of an integer determines it, so consecutive counts
    never print alike. *)
Lemma pretty_succ_ne (n : Z) : pretty (n + 1) ≠ pretty n.
Proof. intros H. apply (inj pretty) in H. lia. Qed.

(** ** Decimal numerals hold no line feed *)

Lemma count_lines_pretty_N_go (x : N) (s : string) :
  count_lines (pretty_N_go x s) = count_lines s.
Proof.
  revert s. induction (N.lt_wf_0 x) as [x _ IH]; intros s.
  destruct (decide (x = 0)%N) as [->|Hx]; [by rewrite pretty_N_go_0|].
  rewrite pretty_N_go_step by lia.
  rewrite IH by (apply N.div_lt; lia).
  cbn [count_lines]. unfold pretty_N_char. by repeat case_match.
Qed.

Lemma count_lines_pretty_Z (z : Z) : count_lines (pretty z) = 0%nat.
Proof.
  destruct z as [|x|x]; [done|..].
  - unfold pretty, pretty_Z, pretty, pretty_positive, pretty, pretty_N.
    case_decide; [done|]. apply count_lines_pretty_N_go.
  - unfold pretty, pretty_Z. rewrite count_lines_app.
    unfold pretty, pretty_positive, pretty, pretty_N.
    case_decide; [done|]. by rewrite count_lines_pretty_N_go.
Qed.

Lemma count_lines_fmt_line (token : string) (i : Z) :
  count_lines token = 0%nat → count_lines (fmt_line token i) = 1%nat.
Proof.
  intros Ht. unfold fmt_line, str.
  by rewrite !count_lines_app, Ht, count_lines_pretty_Z.
Qed.

Lemma count_lines_render (tb : table) :
  (∀ e, e ∈ tb → count_lines e.1 = 0%nat) →
  count_lines (render tb) = length tb.
Proof.
  induction tb as [|e tb IH]; intros Hall; [done|].
  rewrite render_cons, count_lines_app, count_lines_fmt_line by (apply Hall; by left).
  rewrite IH; [done|]. intros e' He'. apply Hall. by right.
Qed.

(** ** The shape of the table *)

Lemma seqZ_snoc (n : Z) : 0 ≤ n → seqZ 0 (n + 1) = seqZ 0 n ++ [n].
Proof. intros Hn. by rewrite seqZ_app by lia. Qed.

Lemma seqZ_lookup_increasing (n : Z) (i j : nat) (a b : Z) :
  seqZ 0 n !! i = Some a → seqZ 0 n !! j = Some b → (i < j)%nat → a < b.
Proof. rewrite !lookup_seqZ. lia. Qed.

Lemma bpe_table_shape (t : Tokenizer) :
  0 ≤ vocab_size t →
  ∃ real : table,
    bpe_table t = real ++ [("<blk>", vocab_size t)]
    ∧ len real = vocab_size t
    ∧ real.*2 = seqZ 0 (vocab_size t).
Proof.
  intros Hn. exists (bpe_entry t <$> seqZ 0 (vocab_size t)). split_and!; [done|..].
  - unfold len. rewrite length_fmap, length_seqZ. lia.
  - rewrite <- list_fmap_compose. by rewrite <- (list_fmap_id (seqZ 0 (vocab_size t))) at 2.
Qed.

Lemma char_table_shape (labels : list string) :
  ∃ real : table,
    char_table labels = real ++ [("<blk>", len labels)]
    ∧ len real = len labels
    ∧ real.*1 = labels
    ∧ real.*2 = seqZ 0 (len labels).
Proof.
  exists (zip labels (seqZ 0 (len labels))).
  assert (length (seqZ 0 (len labels)) = length labels) as Hlen
    by (rewrite length_seqZ; unfold len; lia).
  split_and!; [done|..].
  - unfold len in *. rewrite length_zip_with. lia.
  - apply fst_zip. lia.
  - apply snd_zip. lia.
Qed.

Lemma tokens_table_shape (m : EncDecCTCModel) (n : Z) :
  raw_count m = Some n →
  0 ≤ n →
  ∃ real : table,
    tokens_table m = real ++ [("<blk>", n)]
    ∧ len real = n
    ∧ real.*2 = seqZ 0 n.
Proof.
  unfold raw_count, tokens_table. intros Hraw Hn.
  destruct (tokenizer m) as [| |t].
  1,2: destruct (cfg_labels m) as [| |labels]; [discriminate..|]; injection Hraw as <-;
       destruct (char_table_shape labels) as (real & ? & ? & _ & ?); eauto.
  injection Hraw as <-. by apply bpe_table_shape.
Qed.

(** ** Runs of the vocabulary emission that complete *)

Lemma write_tokens_ok (m : EncDecCTCModel) (path : string) (w w' : world) :
  write_tokens m path w = (Ok (), w') →
  ∃ n, raw_count m = Some n
       ∧ w' = MkWorld (<[path := TextFile (render (tokens_table m))]> (fs w))
                      (tokenizer_calls w ++ emission_calls m).
Proof.
  rewrite write_tokens_branch. unfold raw_count, tokens_table, emission_calls.
  intros Hrun. destruct (tokenizer m) as [| |t] eqn:Ht.
  1,2: destruct (cfg_labels m) as [| |labels] eqn:Hl;
       [ by rewrite write_char_tokens_no_labels in Hrun by (rewrite Hl; done)
       | by rewrite write_char_tokens_no_labels in Hrun by (rewrite Hl; done)
       | rewrite (write_char_tokens_run m labels) in Hrun by done ];
       injection Hrun as <-; rewrite app_nil_r; eauto.
  pose proof (write_bpe_tokens_inv m t path w w' Ht Hrun) as Hall.
  rewrite (write_bpe_tokens_run m t) in Hrun by done.
  injection Hrun as <-. eauto.
Qed.

Lemma write_tokens_run (m : EncDecCTCModel) (path : string) (w : world) :
  can_emit m →
  write_tokens m path w
  = (Ok (), MkWorld (<[path := TextFile (render (tokens_table m))]> (fs w))
                    (tokenizer_calls w ++ emission_calls m)).
Proof.
  rewrite write_tokens_branch. unfold can_emit, tokens_table, emission_calls.
  destruct (tokenizer m) as [| |t] eqn:Ht.
  1,2: intros [labels Hl]; rewrite (write_char_tokens_run m labels) by done;
       by rewrite Hl, app_nil_r.
  intros Hall. by apply write_bpe_tokens_run.
Qed.

Lemma can_emit_raw_count (m : EncDecCTCModel) : can_emit m → is_Some (raw_count m).
Proof.
  unfold can_emit, raw_count. destruct (tokenizer m); [| |by eexists];
    intros [labels ->]; by eexists.
Qed.

(** ** Paths *)

Lemma path_join_inj (dir a b : string) : path_join dir a = path_join dir b → a = b.
Proof.
  unfold path_join. induction dir as [|c dir IH]; intros H.
  - by injection H.
  - apply IH. unfold String.app in *. cbn [String.append] in H. by injection H.
Qed.

Lemma tokens_path_ne_model_path (dir : string) :
  path_join dir "tokens.txt" ≠ path_join dir "model.onnx".
Proof. intros H. by apply path_join_inj in H. Qed.

(** ** Tokenizer calls only accumulate *)

Lemma write_calls (path s : string) (w : world) :
  tokenizer_calls (write path s w).2 = tokenizer_calls w.
Proof. unfold write. by destruct (fs w !! path) as [[c|p]|]. Qed.

Lemma write_token_line_calls (m : EncDecCTCModel) (path : string) (i : Z) (w : world) :
  ∃ more, tokenizer_calls (write_token_line m path i w).2 = tokenizer_calls w ++ more.
Proof.
  unfold write_token_line, tokenizer_ids_to_tokens, getattr_tokenizer.
  destruct (tokenizer m) as [| |t].
  1,2: exists []; by rewrite app_nil_r.
  rewrite !bind_run. cbn [mret M_mret M_ret log_call lift fs tokenizer_calls].
  rewrite !bind_run. cbn [log_call lift fs tokenizer_calls].
  destruct (ids_to_tokens t [i]) as [[|y toks]|e]; cbn [index0 raise mret M_mret M_ret snd];
    eauto.
  rewrite bind_run. cbn [mret M_mret M_ret].
  rewrite write_calls. cbn [tokenizer_calls]. eauto.
Qed.

Lemma for_token_lines_calls (m : EncDecCTCModel) (path : string) (ids : list Z) (w : world) :
  ∃ more,
    tokenizer_calls (for_ ids (write_token_line m path) w).2 = tokenizer_calls w ++ more.
Proof.
  revert w. induction ids as [|i ids IH]; intros w.
  - exists []. by rewrite app_nil_r.
  - rewrite for_cons.
    destruct (write_token_line_calls m path i w) as [more1 H1].
    destruct (write_token_line m path i w) as [[[]|e] w1]; cbn [snd] in *.
    + destruct (IH w1) as [more2 H2]. exists (more1 ++ more2).
      by rewrite H2, H1, app_assoc.
    + eauto.
Qed.

Lemma write_bpe_tokens_calls (m : EncDecCTCModel) (t : Tokenizer) (path : string)
    (w : world) :
  tokenizer m = Val t →
  ∃ more,
    tokenizer_calls (write_bpe_tokens m path w).2
    = tokenizer_calls w ++ GetVocabSize :: more.
Proof.
  intros Ht. unfold write_bpe_tokens.
  rewrite (bind_ok _ _ _ _ _ (tokenizer_vocab_size_run m t w Ht)).
  rewrite bind_run, open_w_run. cbn [fs tokenizer_calls].
  rewrite bind_run.
  match goal with |- context [for_ ?ids ?body ?w0] =>
    destruct (for_token_lines_calls m path ids w0) as [more Hmore];
    destruct (for_ ids body w0) as [[[]|e] w1] end; cbn [snd tokenizer_calls] in *.
  - rewrite write_calls, Hmore, <- app_assoc. cbn [app]. eauto.
  - rewrite Hmore, <- app_assoc. cbn [app]. eauto.
Qed.

Lemma write_char_tokens_calls (m : EncDecCTCModel) (path : string) (w : world) :
  tokenizer_calls (write_char_tokens m path w).2 = tokenizer_calls w.
Proof.
  destruct (cfg_labels m) as [| |labels] eqn:Hl.
  - by rewrite write_char_tokens_no_labels by (rewrite Hl; done).
  - by rewrite write_char_tokens_no_labels by (rewrite Hl; done).
  - by rewrite (write_char_tokens_run m labels).
Qed.

(** * The claims *)

(** C1: in the tokenizer branch a token that is exactly one space, and
    no other token, is replaced by one fixed text, and the claim expects
    that text to be the single glyph U+2581.  For the
    synthetic tokenizer over ["a"; " "; "c"] the run completes and the
    tokens file holds four lines, but the second line carries the literal
    of line 59 as the source has it: the three code points U+201A U+00F1
    U+00C5 (seven bytes), not U+2581 (three bytes); the file therefore
    differs from the expected text. *)
Theorem C1_space_marker_is_not_U2581 (path : string) (w : world) :
  let m := bpe_model ["a"; " "; "c"] in
  (write_tokens m path w).1 = Ok ()
  ∧ fs (write_tokens m path w).2 !! path
    = Some (TextFile (text_of_lines ["a 0"; "‚ñÅ 1"; "c 2"; "<blk> 3"]))
  ∧ fs (write_tokens m path w).2 !! path
    ≠ Some (TextFile (text_of_lines ["a 0"; "▁ 1"; "c 2"; "<blk> 3"]))
  ∧ replace_special " " = space_marker
  ∧ (∀ token, token ≠ " " → replace_special token = token)
  ∧ bytes space_marker = [226; 128; 154; 195; 177; 195; 133]
  ∧ code_points space_marker = 3%nat
  ∧ bytes "▁" = [226; 150; 129]
  ∧ code_points "▁" = 1%nat.
Proof.
  intros m.
  assert (∀ token, token ≠ " " → replace_special token = token) as Hother.
  { intros token Hne. unfold replace_special.
    by destruct (String.eqb_spec token " "). }
  assert (write_tokens m path w
          = (Ok (), MkWorld (<[path := TextFile
                                 (text_of_lines ["a 0"; "‚ñÅ 1"; "c 2"; "<blk> 3"])]> (fs w))
                            (tokenizer_calls w ++ emission_calls m))) as Hrun.
  { rewrite write_tokens_branch. subst m. cbn [tokenizer bpe_model].
    rewrite (write_bpe_tokens_run _ (synthetic_tokenizer ["a"; " "; "c"])); [done|done|].
    intros i Hi. change (vocab_size _) with 3 in Hi.
    assert (i = 0 ∨ i = 1 ∨ i = 2) as [->|[->| ->]] by lia; by eexists. }
  rewrite Hrun. cbn [fst snd fs]. rewrite lookup_insert_eq.
  split_and!; done.
Qed.

(** C4: in the label-list branch the labels are written verbatim in index
    order, label [i] on the line ["<label> <i>"], followed by the line
    ["<blk> <label_count>"]; for the labels ["x"; "y"] the file is
    exactly the three lines ["x 0"], ["y 1"], ["<blk> 2"]. *)
Theorem C4_label_branch_file (m : EncDecCTCModel) (labels : list string)
    (path : string) (w : world) :
  tokenizer m = Absent ∨ tokenizer m = IsNone →
  cfg_labels m = Val labels →
  ∃ real : table,
    write_tokens m path w
    = (Ok (), MkWorld (<[path := TextFile (render (real ++ [("<blk>", len labels)]))]> (fs w))
                      (tokenizer_calls w))
    ∧ real.*1 = labels
    ∧ real.*2 = seqZ 0 (len labels)
    ∧ (labels = ["x"; "y"] →
       render (real ++ [("<blk>", len labels)])
       = text_of_lines ["x 0"; "y 1"; "<blk> 2"]).
Proof.
  intros Htok Hl.
  exists (zip labels (seqZ 0 (len labels))).
  destruct (char_table_shape labels) as (real & Hshape & _ & H1 & H2).
  apply app_inj_tail in Hshape as [<- _].
  split_and!; [|done|done|by intros ->].
  rewrite write_tokens_branch.
  destruct Htok as [-> | ->]; by rewrite (write_char_tokens_run m labels).
Qed.

Lemma C4_label_branch_file_witness :
  (tokenizer (char_model ["x"; "y"]) = Absent ∨ tokenizer (char_model ["x"; "y"]) = IsNone)
  ∧ cfg_labels (char_model ["x"; "y"]) = Val ["x"; "y"]
  ∧ ∃ real : table,
      write_tokens (char_model ["x"; "y"]) "tokens.txt" empty_world
      = (Ok (), MkWorld (<["tokens.txt" := TextFile (render (real ++ [("<blk>", 2)]))]> ∅) [])
      ∧ real.*1 = ["x"; "y"]
      ∧ real.*2 = [0; 1]
      ∧ (["x"; "y"] = ["x"; "y"] →
         render (real ++ [("<blk>", 2)]) = text_of_lines ["x 0"; "y 1"; "<blk> 2"]).
Proof.
  split; [right; reflexivity|]. split; [reflexivity|].
  apply (C4_label_branch_file (char_model ["x"; "y"]) ["x"; "y"] "tokens.txt" empty_world).
  - right; reflexivity.
  - reflexivity.
Defined.

(** ** The tokens file as a text *)

Lemma render_zip_entries (texts : list string) (start : Z) :
  render (zip texts (seqZ start (len texts))) = entries_text start texts.
Proof.
  revert start. induction texts as [|x texts IH]; intros start; [done|].
  rewrite (seqZ_cons start) by (unfold len; cbn [length]; lia).
  cbn [zip zip_with]. rewrite render_cons. cbn [entries_text fst snd].
  replace (Z.pred (len (x :: texts))) with (len texts)
    by (unfold len; cbn [length]; lia).
  replace (Z.succ start) with (start + 1) by lia.
  by rewrite IH.
Qed.

Lemma seqZ_len_fmap {A : Type} (g : Z → A) (v : Z) :
  seqZ 0 (len (g <$> seqZ 0 v)) = seqZ 0 v.
Proof.
  unfold len. rewrite length_fmap, length_seqZ. unfold seqZ. by rewrite Nat2Z.id.
Qed.

Lemma bpe_entries_zip (t : Tokenizer) :
  bpe_entry t <$> seqZ 0 (vocab_size t)
  = zip ((λ i, replace_special (default "" (token_text t i))) <$> seqZ 0 (vocab_size t))
        (seqZ 0 (vocab_size t)).
Proof.
  induction (seqZ 0 (vocab_size t)) as [|i ids IH]; [done|].
  cbn [fmap list_fmap zip_with]. by rewrite <- IH.
Qed.

Lemma tokens_table_text (m : EncDecCTCModel) (n : Z) :
  raw_count m = Some n →
  render (tokens_table m) = tokens_text (vocabulary_texts m) n
  ∧ length (vocabulary_texts m) = Z.to_nat n.
Proof.
  unfold raw_count, tokens_table, vocabulary_texts, tokens_text. intros Hraw.
  destruct (tokenizer m) as [| |t].
  1,2: destruct (cfg_labels m) as [| |labels]; [discriminate..|]; injection Hraw as <-;
       unfold char_table; rewrite render_app, render_single, render_zip_entries;
       split; [done|unfold len; lia].
  injection Hraw as <-. unfold bpe_table.
  rewrite render_app, render_single, bpe_entries_zip.
  rewrite <- (seqZ_len_fmap (λ i, replace_special (default "" (token_text t i)))) at 2.
  rewrite render_zip_entries. split; [done|].
  by rewrite length_fmap, length_seqZ.
Qed.

Lemma count_lines_numbered (x : string) (i : Z) :
  count_lines x = 0%nat → count_lines (x +:+ " " +:+ pretty i) = 0%nat.
Proof. intros Hx. by rewrite !count_lines_app, Hx, count_lines_pretty_Z. Qed.

Lemma entry_text_ends (x : string) (i : Z) :
  entry_text x i = (x +:+ " " +:+ pretty i) +:+ String (Ascii.ascii_of_nat 10) "".
Proof. unfold entry_text, nl. by rewrite !str_app_assoc. Qed.

(** Reading a line that holds no line feed up to the line feed after it. *)
Lemma lines_from_line (a rest acc : string) :
  count_lines a = 0%nat →
  lines_from (a +:+ String (Ascii.ascii_of_nat 10) rest) acc
  = (acc +:+ a) :: lines_from rest "".
Proof.
  revert acc. induction a as [|ch a IH]; intros acc Ha.
  - cbn. by rewrite str_app_nil_r.
  - cbn [count_lines] in Ha. unfold String.app. cbn [String.append lines_from].
    destruct (Ascii.eqb ch (Ascii.ascii_of_nat 10)); [discriminate|].
    fold (String.app a (String (Ascii.ascii_of_nat 10) rest)).
    rewrite IH by done. by rewrite str_app_assoc.
Qed.

Lemma lines_from_entries (texts : list string) (start : Z) (rest : string) :
  (∀ x, x ∈ texts → count_lines x = 0%nat) →
  lines_from (entries_text start texts +:+ rest) ""
  = imap (λ i x, x +:+ " " +:+ pretty (start + Z.of_nat i)) texts ++ lines_from rest "".
Proof.
  revert start. induction texts as [|x texts IH]; intros start Hall; [done|].
  cbn [entries_text imap]. rewrite entry_text_ends, !str_app_assoc.
  change (String (Ascii.ascii_of_nat 10) "" +:+ entries_text (start + 1) texts +:+ rest)
    with (String (Ascii.ascii_of_nat 10) (entries_text (start + 1) texts +:+ rest)).
  rewrite <- !str_app_assoc.
  rewrite lines_from_line
    by (rewrite str_app_assoc; apply count_lines_numbered, Hall; by left).
  rewrite IH by (intros y Hy; apply Hall; by right).
  cbn [app]. f_equal.
  - replace (start + Z.of_nat 0) with start by lia.
    by rewrite !str_app_assoc.
  - f_equal. apply imap_ext. intros i y _. cbn.
    by replace (start + 1 + Z.of_nat i) with (start + Z.of_nat (S i)) by lia.
Qed.

Lemma lines_tokens_text (texts : list string) (n : Z) :
  (∀ x, x ∈ texts → count_lines x = 0%nat) →
  lines (tokens_text texts n)
  = imap (λ i x, x +:+ " " +:+ pretty (Z.of_nat i)) texts ++ ["<blk> " +:+ pretty n].
Proof.
  intros Hall. unfold lines, tokens_text.
  rewrite lines_from_entries by done. f_equal.
  rewrite entry_text_ends, lines_from_line by (by apply count_lines_numbered).
  done.
Qed.

Lemma count_lines_entry_text (x : string) (i : Z) :
  count_lines (entry_text x i) = S (count_lines x).
Proof.
  unfold entry_text. rewrite !count_lines_app, count_lines_pretty_Z.
  change (count_lines " ") with 0%nat. change (count_lines nl) with 1%nat. lia.
Qed.

Lemma vocabulary_texts_lookup (m : EncDecCTCModel) (t : Tokenizer) (i : Z) (x : string) :
  tokenizer m = Val t →
  0 ≤ i < vocab_size t →
  token_text t i = Some x →
  vocabulary_texts m !! Z.to_nat i = Some (replace_special x).
Proof.
  intros Ht Hi Hx. unfold vocabulary_texts. rewrite Ht.
  assert (seqZ 0 (vocab_size t) !! Z.to_nat i = Some i) as Hlook
    by (rewrite lookup_seqZ; lia).
  rewrite list_lookup_fmap, Hlook. cbn [fmap option_fmap option_map].
  by rewrite Hx.
Qed.

(** C5 (amended): whenever the tokens file has been written, in either
    branch, it is the real entries in order followed by the blank: entry
    [i], counted from zero, is the text of the entry, a space and [i] in
    decimal, so the ids are dense, zero-based and strictly increasing in
    entry order, and the entries are the lines of the file when no text
    holds a line feed.  The blank entry comes last with the size the
    model reports (the tokenizer's vocabulary size or the number of
    labels); this is the number of real entries, one past the last real
    id, whenever the reported size is not negative. *)
Theorem C5_entries_numbered_blank_last (m : EncDecCTCModel) (path : string)
    (w w' : world) :
  write_tokens m path w = (Ok (), w') →
  ∃ (texts : list string) (n : Z),
    raw_count m = Some n
    ∧ fs w' !! path = Some (TextFile (tokens_text texts n))
    ∧ length texts = Z.to_nat n
    ∧ (0 ≤ n → n = len texts)
    ∧ match tokenizer m with
      | Val t =>
          ∀ i x, 0 ≤ i < n → token_text t i = Some x →
                 texts !! Z.to_nat i = Some (replace_special x)
      | Absent | IsNone => cfg_labels m = Val texts
      end
    ∧ ((∀ x, x ∈ texts → count_lines x = 0%nat) →
       lines (tokens_text texts n)
       = imap (λ i x, x +:+ " " +:+ pretty (Z.of_nat i)) texts
         ++ ["<blk> " +:+ pretty n]).
Proof.
  intros Hrun. apply write_tokens_ok in Hrun as (n & Hraw & ->).
  destruct (tokens_table_text m n Hraw) as [Htext Hlen].
  exists (vocabulary_texts m), n. cbn [fs]. rewrite lookup_insert_eq, Htext.
  split_and!; [done|done|done|unfold len; lia| |apply lines_tokens_text].
  unfold raw_count in Hraw. destruct (tokenizer m) as [| |t] eqn:Ht.
  1,2: unfold vocabulary_texts; rewrite Ht;
       by destruct (cfg_labels m) as [| |labels].
  injection Hraw as <-. intros i x Hi Hx. by apply (vocabulary_texts_lookup m t).
Qed.

Lemma C5_entries_numbered_blank_last_witness :
  let m := bpe_model ["a"; " "; "c"] in
  let w' := (write_tokens m "tokens.txt" empty_world).2 in
  write_tokens m "tokens.txt" empty_world = (Ok (), w')
  ∧ ∃ (texts : list string) (n : Z),
      raw_count m = Some n
      ∧ fs w' !! "tokens.txt" = Some (TextFile (tokens_text texts n))
      ∧ length texts = Z.to_nat n
      ∧ (0 ≤ n → n = len texts)
      ∧ match tokenizer m with
        | Val t =>
            ∀ i x, 0 ≤ i < n → token_text t i = Some x →
                   texts !! Z.to_nat i = Some (replace_special x)
        | Absent | IsNone => cfg_labels m = Val texts
        end
      ∧ ((∀ x, x ∈ texts → count_lines x = 0%nat) →
         lines (tokens_text texts n)
         = imap (λ i x, x +:+ " " +:+ pretty (Z.of_nat i)) texts
           ++ ["<blk> " +:+ pretty n]).
Proof.
  intros m w'.
  assert (write_tokens m "tokens.txt" empty_world = (Ok (), w')) as Hrun
    by (vm_compute; reflexivity).
  split; [exact Hrun|].
  exact (C5_entries_numbered_blank_last m "tokens.txt" empty_world w' Hrun).
Defined.

(** C5 without the amendment fails for a tokenizer that reports the
    size -1: the file written is the single line ["<blk> -1"], and no
    table whose blank id is its own size prints to that text. *)
Lemma C5_counterexample_negative_size :
  let m := negative_model in
  let w' := (write_tokens m "tokens.txt" empty_world).2 in
  write_tokens m "tokens.txt" empty_world = (Ok (), w')
  ∧ fs w' !! "tokens.txt" = Some (TextFile (text_of_lines ["<blk> -1"]))
  ∧ lines (text_of_lines ["<blk> -1"]) = ["<blk> -1"]
  ∧ ¬ ∃ texts : list string,
        text_of_lines ["<blk> -1"] = tokens_text texts (len texts).
Proof.
  intros m w'. split_and!; [by vm_compute..|].
  intros [[|x texts] Heq]; [by vm_compute in Heq|].
  apply (f_equal count_lines) in Heq. revert Heq.
  unfold tokens_text. cbn [entries_text].
  rewrite !count_lines_app, !count_lines_entry_text.
  change (count_lines (text_of_lines ["<blk> -1"])) with 1%nat. lia.
Qed.

(** C6: when the tokenizer attribute is missing or [None] the run is the
    label-list branch, whatever else the model holds, and the tokenizer
    is never called; the tokenizer branch runs exactly when the attribute
    holds a tokenizer, and it starts by asking for the vocabulary size. *)
Theorem C6_branch_on_tokenizer (m : EncDecCTCModel) (path : string) (w : world) :
  match tokenizer m with
  | Val t =>
      write_tokens m path w = write_bpe_tokens m path w
      ∧ ∃ more, tokenizer_calls (write_tokens m path w).2
                = tokenizer_calls w ++ GetVocabSize :: more
  | Absent | IsNone =>
      write_tokens m path w = write_char_tokens m path w
      ∧ tokenizer_calls (write_tokens m path w).2 = tokenizer_calls w
  end.
Proof.
  rewrite write_tokens_branch.
  destruct (tokenizer m) as [| |t] eqn:Ht.
  - split; [done|]. apply write_char_tokens_calls.
  - split; [done|]. apply write_char_tokens_calls.
  - split; [done|]. by apply (write_bpe_tokens_calls m t).
Qed.

(** ** The metadata patch step on an exported graph *)

Lemma count_key_app (k : string) (es1 es2 : list StringStringEntryProto) :
  count_key k (es1 ++ es2) = (count_key k es1 + count_key k es2)%nat.
Proof. unfold count_key. by rewrite filter_app, length_app. Qed.

Lemma count_key_patch_entries (m : EncDecCTCModel) (n : Z) (k : string) :
  k ∈ metadata_keys → count_key k (patch_entries m n) = 1%nat.
Proof.
  intros Hk. unfold metadata_keys in Hk. elem_of_cases Hk; reflexivity.
Qed.

Section patch_step.

(** The step runs on a world [w] whose file [path] holds the graph [p],
    for a model [m] whose raw vocabulary count is [n]. *)
Context (m : EncDecCTCModel) (n : Z) (p : ModelProto) (path : string) (w : world).
Hypothesis graph_on_disk : fs w !! path = Some (OnnxFile p).
Hypothesis count_known : raw_count m = Some n.

Abbreviation w1 := (patched_world m n p path w).

Lemma patch_step_run : patch_metadata m path w = (Ok (), w1).
Proof. by apply patch_metadata_run. Qed.

Lemma patch_step_file : fs w1 !! path = Some (OnnxFile (patched m n p)).
Proof. apply lookup_insert_eq. Qed.

(** C2: the [vocab_size] entry appended to the exported graph is the text
    of the raw vocabulary count plus one (the tokenizer's vocabulary size
    when the model has a tokenizer, the number of labels otherwise), and
    this text is never the text of the raw count. *)
Theorem C2_vocab_size_counts_blank :
  ∃ (w' : world) (p' : ModelProto) (rest : list StringStringEntryProto),
    patch_metadata m path w = (Ok (), w')
    ∧ fs w' !! path = Some (OnnxFile p')
    ∧ metadata_props p'
      = metadata_props p ++ MkEntry "vocab_size" (str (Int (n + 1))) :: rest
    ∧ (∀ e, e ∈ rest → key e ≠ "vocab_size")
    ∧ str (Int (n + 1)) ≠ str (Int n).
Proof.
  eexists w1, (patched m n p), _.
  split; [apply patch_step_run|]. split; [apply patch_step_file|].
  split; [reflexivity|]. split; [|apply pretty_succ_ne].
  intros e He. elem_of_cases He; done.
Qed.

(** C3: the patch step appends to the metadata of the loaded graph exactly
    five entries, whose keys are, in order, [vocab_size], [normalize_type],
    [subsampling_factor], [model_type] and [version]; [model_type] is the
    constant "EncDecCTCModelBPE" and [version] the constant "1"; every
    value of the metadata dict is a [str]. *)
Theorem C3_five_string_entries :
  ∃ (w' : world) (p' : ModelProto) (added : list StringStringEntryProto),
    patch_metadata m path w = (Ok (), w')
    ∧ fs w' !! path = Some (OnnxFile p')
    ∧ metadata_props p' = metadata_props p ++ added
    ∧ key <$> added = metadata_keys
    ∧ length added = 5%nat
    ∧ NoDup (key <$> added)
    ∧ added !! 3%nat = Some (MkEntry "model_type" "EncDecCTCModelBPE")
    ∧ added !! 4%nat = Some (MkEntry "version" "1")
    ∧ added = (λ kv, MkEntry kv.1 (str kv.2)) <$> items (metadata m (n + 1))
    ∧ Forall (λ kv : string * Py.value, ∃ s, kv.2 = Str s) (items (metadata m (n + 1))).
Proof.
  eexists w1, (patched m n p), (patch_entries m (n + 1)).
  split; [apply patch_step_run|]. split; [apply patch_step_file|].
  rewrite metadata_items.
  split_and!; try done.
  - apply (bool_decide_unpack _). by vm_compute.
  - repeat (apply Forall_cons; split; [by eexists|]). apply Forall_nil_2.
Qed.

(** C7: the [normalize_type] entry is the empty string when the
    preprocessor configuration has no [normalize] key and the text of the
    configured value when it has one; the [subsampling_factor] entry is
    "4" when the encoder configuration has no [subsampling_factor] key
    and the text of the configured value when it has one. *)
Theorem C7_config_defaults :
  ∃ (w' : world) (p' : ModelProto) (v : string),
    patch_metadata m path w = (Ok (), w')
    ∧ fs w' !! path = Some (OnnxFile p')
    ∧ metadata_props p'
      = metadata_props p
        ++ [ MkEntry "vocab_size" v;
             MkEntry "normalize_type"
               (match preprocessor_cfg m !! "normalize" with
                | None => ""
                | Some x => str x
                end);
             MkEntry "subsampling_factor"
               (match encoder_cfg m !! "subsampling_factor" with
                | None => "4"
                | Some x => str x
                end);
             MkEntry "model_type" "EncDecCTCModelBPE";
             MkEntry "version" "1" ].
Proof.
  eexists w1, (patched m n p), _.
  split; [apply patch_step_run|]. split; [apply patch_step_file|].
  unfold patched, with_metadata_props, patch_entries, normalize_type,
    subsampling_factor, get.
  cbn [metadata_props]. do 3 f_equal.
  - by destruct (preprocessor_cfg m !! "normalize").
  - f_equal. by destruct (encoder_cfg m !! "subsampling_factor").
Qed.

(** C8: run on a graph that it has already patched, the patch step
    completes again and appends its five entries a second time; each of
    the five keys then occurs twice more than before the first run, so
    the step is not idempotent and nothing guards against keys that are
    already there. *)
Theorem C8_second_patch_duplicates :
  ∃ (w' w'' : world) (p' p'' : ModelProto),
    patch_metadata m path w = (Ok (), w')
    ∧ fs w' !! path = Some (OnnxFile p')
    ∧ patch_metadata m path w' = (Ok (), w'')
    ∧ fs w'' !! path = Some (OnnxFile p'')
    ∧ metadata_props p' = metadata_props p ++ patch_entries m (n + 1)
    ∧ metadata_props p''
      = metadata_props p ++ patch_entries m (n + 1) ++ patch_entries m (n + 1)
    ∧ (∀ k, k ∈ metadata_keys →
         count_key k (metadata_props p') = (count_key k (metadata_props p) + 1)%nat
         ∧ count_key k (metadata_props p'') = (count_key k (metadata_props p) + 2)%nat)
    ∧ p'' ≠ p'.
Proof.
  pose proof (patch_metadata_run m n (patched m n p) path w1 patch_step_file count_known)
    as Hagain.
  eexists w1, _, (patched m n p), (patched m n (patched m n p)).
  split_and!; [apply patch_step_run|apply patch_step_file|exact Hagain|..].
  - cbn [fs]. apply lookup_insert_eq.
  - done.
  - unfold patched, with_metadata_props. cbn [metadata_props]. by rewrite <- app_assoc.
  - intros k Hk. unfold patched, with_metadata_props. cbn [metadata_props].
    rewrite !count_key_app, !count_key_patch_entries by done. lia.
  - intros Heq. apply (f_equal (λ x, length (metadata_props x))) in Heq.
    unfold patched, with_metadata_props in Heq. cbn [metadata_props] in Heq.
    rewrite !length_app in Heq. cbn [patch_entries length] in Heq. lia.
Qed.

(** C10: the patch step changes only the metadata of the graph it loads:
    the graph proper (nodes, initializers, inputs, outputs) and the other
    fields of the model are saved as they were loaded, the existing
    metadata entries stay in front of the new ones, and no other file is
    touched. *)
Theorem C10_patch_frames_graph :
  ∃ (w' : world) (p' : ModelProto),
    patch_metadata m path w = (Ok (), w')
    ∧ fs w' !! path = Some (OnnxFile p')
    ∧ node (graph p') = node (graph p)
    ∧ initializer (graph p') = initializer (graph p)
    ∧ input (graph p') = input (graph p)
    ∧ output (graph p') = output (graph p)
    ∧ ir_version p' = ir_version p
    ∧ producer_name p' = producer_name p
    ∧ opset_import p' = opset_import p
    ∧ p' = with_metadata_props p (metadata_props p')
    ∧ (∃ added, metadata_props p' = metadata_props p ++ added)
    ∧ (∀ q, q ≠ path → fs w' !! q = fs w !! q).
Proof.
  eexists w1, (patched m n p).
  split; [apply patch_step_run|]. split; [apply patch_step_file|].
  split_and!; try done.
  - by eexists.
  - intros q Hq. unfold patched_world. cbn [fs]. by rewrite lookup_insert_ne.
Qed.

End patch_step.

Lemma C2_vocab_size_counts_blank_witness :
  fs exported_world !! "model.onnx" = Some (OnnxFile empty_graph)
  ∧ raw_count (bpe_model ["a"; " "; "c"]) = Some 3
  ∧ ∃ (w' : world) (p' : ModelProto) (rest : list StringStringEntryProto),
      patch_metadata (bpe_model ["a"; " "; "c"]) "model.onnx" exported_world = (Ok (), w')
      ∧ fs w' !! "model.onnx" = Some (OnnxFile p')
      ∧ metadata_props p'
        = metadata_props empty_graph ++ MkEntry "vocab_size" (str (Int (3 + 1))) :: rest
      ∧ (∀ e, e ∈ rest → key e ≠ "vocab_size")
      ∧ str (Int (3 + 1)) ≠ str (Int 3).
Proof.
  split; [reflexivity|]. split; [reflexivity|].
  apply (C2_vocab_size_counts_blank (bpe_model ["a"; " "; "c"]) 3 empty_graph
           "model.onnx" exported_world); reflexivity.
Defined.

Lemma C3_five_string_entries_witness :
  fs exported_world !! "model.onnx" = Some (OnnxFile empty_graph)
  ∧ raw_count (char_model ["x"; "y"]) = Some 2
  ∧ ∃ (w' : world) (p' : ModelProto) (added : list StringStringEntryProto),
      patch_metadata (char_model ["x"; "y"]) "model.onnx" exported_world = (Ok (), w')
      ∧ fs w' !! "model.onnx" = Some (OnnxFile p')
      ∧ metadata_props p' = metadata_props empty_graph ++ added
      ∧ key <$> added = metadata_keys
      ∧ length added = 5%nat
      ∧ NoDup (key <$> added)
      ∧ added !! 3%nat = Some (MkEntry "model_type" "EncDecCTCModelBPE")
      ∧ added !! 4%nat = Some (MkEntry "version" "1")
      ∧ added = (λ kv, MkEntry kv.1 (str kv.2))
                  <$> items (metadata (char_model ["x"; "y"]) (2 + 1))
      ∧ Forall (λ kv : string * Py.value, ∃ s, kv.2 = Str s)
               (items (metadata (char_model ["x"; "y"]) (2 + 1))).
Proof.
  split; [reflexivity|]. split; [reflexivity|].
  apply (C3_five_string_entries (char_model ["x"; "y"]) 2 empty_graph
           "model.onnx" exported_world); reflexivity.
Defined.

Lemma C7_config_defaults_witness :
  fs exported_world !! "model.onnx" = Some (OnnxFile empty_graph)
  ∧ raw_count configured_model = Some 2
  ∧ ∃ (w' : world) (p' : ModelProto) (v : string),
      patch_metadata configured_model "model.onnx" exported_world = (Ok (), w')
      ∧ fs w' !! "model.onnx" = Some (OnnxFile p')
      ∧ metadata_props p'
        = metadata_props empty_graph
          ++ [ MkEntry "vocab_size" v;
               MkEntry "normalize_type"
                 (match preprocessor_cfg configured_model !! "normalize" with
                  | None => ""
                  | Some x => str x
                  end);
               MkEntry "subsampling_factor"
                 (match encoder_cfg configured_model !! "subsampling_factor" with
                  | None => "4"
                  | Some x => str x
                  end);
               MkEntry "model_type" "EncDecCTCModelBPE";
               MkEntry "version" "1" ].
Proof.
  split; [reflexivity|]. split; [reflexivity|].
  apply (C7_config_defaults configured_model 2 empty_graph
           "model.onnx" exported_world); reflexivity.
Defined.

(** The two configured values of [configured_model] reach the graph, and
    the defaults reach it for a model that configures neither. *)
Example patch_metadata_configured :
  (λ w', metadata_props <$> (match fs w' !! "model.onnx" with
                             | Some (OnnxFile p) => Some p
                             | _ => None
                             end))
    (patch_metadata configured_model "model.onnx" exported_world).2
  = Some [ MkEntry "vocab_size" "3"; MkEntry "normalize_type" "per_feature";
           MkEntry "subsampling_factor" "8"; MkEntry "model_type" "EncDecCTCModelBPE";
           MkEntry "version" "1" ].
Proof. vm_compute. reflexivity. Qed.

Example patch_metadata_defaults :
  (λ w', metadata_props <$> (match fs w' !! "model.onnx" with
                             | Some (OnnxFile p) => Some p
                             | _ => None
                             end))
    (patch_metadata (char_model ["x"; "y"]) "model.onnx" exported_world).2
  = Some [ MkEntry "vocab_size" "3"; MkEntry "normalize_type" "";
           MkEntry "subsampling_factor" "4"; MkEntry "model_type" "EncDecCTCModelBPE";
           MkEntry "version" "1" ].
Proof. vm_compute. reflexivity. Qed.

Lemma C8_second_patch_duplicates_witness :
  fs exported_world !! "model.onnx" = Some (OnnxFile empty_graph)
  ∧ raw_count configured_model = Some 2
  ∧ ∃ (w' w'' : world) (p' p'' : ModelProto),
      patch_metadata configured_model "model.onnx" exported_world = (Ok (), w')
      ∧ fs w' !! "model.onnx" = Some (OnnxFile p')
      ∧ patch_metadata configured_model "model.onnx" w' = (Ok (), w'')
      ∧ fs w'' !! "model.onnx" = Some (OnnxFile p'')
      ∧ metadata_props p'
        = metadata_props empty_graph ++ patch_entries configured_model (2 + 1)
      ∧ metadata_props p''
        = metadata_props empty_graph ++ patch_entries configured_model (2 + 1)
          ++ patch_entries configured_model (2 + 1)
      ∧ (∀ k, k ∈ metadata_keys →
           count_key k (metadata_props p')
           = (count_key k (metadata_props empty_graph) + 1)%nat
           ∧ count_key k (metadata_props p'')
             = (count_key k (metadata_props empty_graph) + 2)%nat)
      ∧ p'' ≠ p'.
Proof.
  split; [reflexivity|]. split; [reflexivity|].
  apply (C8_second_patch_duplicates configured_model 2 empty_graph
           "model.onnx" exported_world); reflexivity.
Defined.

Lemma C10_patch_frames_graph_witness :
  fs exported_world !! "model.onnx" = Some (OnnxFile empty_graph)
  ∧ raw_count configured_model = Some 2
  ∧ ∃ (w' : world) (p' : ModelProto),
      patch_metadata configured_model "model.onnx" exported_world = (Ok (), w')
      ∧ fs w' !! "model.onnx" = Some (OnnxFile p')
      ∧ node (graph p') = node (graph empty_graph)
      ∧ initializer (graph p') = initializer (graph empty_graph)
      ∧ input (graph p') = input (graph empty_graph)
      ∧ output (graph p') = output (graph empty_graph)
      ∧ ir_version p' = ir_version empty_graph
      ∧ producer_name p' = producer_name empty_graph
      ∧ opset_import p' = opset_import empty_graph
      ∧ p' = with_metadata_props empty_graph (metadata_props p')
      ∧ (∃ added, metadata_props p' = metadata_props empty_graph ++ added)
      ∧ (∀ q, q ≠ "model.onnx" → fs w' !! q = fs exported_world !! q).
Proof.
  split; [reflexivity|]. split; [reflexivity|].
  apply (C10_patch_frames_graph configured_model 2 empty_graph
           "model.onnx" exported_world); reflexivity.
Defined.

(** ** The whole run *)

Lemma main_ok (m : EncDecCTCModel) (dir : string) (w w' : world) :
  main m dir w = (Ok (), w') →
  ∃ n, raw_count m = Some n
       ∧ w' = MkWorld
                (<[path_join dir "model.onnx" := OnnxFile (patched m n (export m))]>
                   (<[path_join dir "model.onnx" := OnnxFile (export m)]>
                      (<[path_join dir "tokens.txt" := TextFile (render (tokens_table m))]>
                         (fs w))))
                (tokenizer_calls w ++ emission_calls m ++ vocab_size_calls m).
Proof.
  unfold main. intros Hrun.
  apply bind_ok_inv in Hrun as ([] & w1 & Htok & Hrun).
  apply write_tokens_ok in Htok as (n & Hn & ->).
  exists n. split; [done|].
  rewrite bind_run in Hrun. unfold export_model in Hrun.
  destruct (export_error m) as [e|]; [discriminate|].
  unfold onnx_save at 1 in Hrun. cbn [fs tokenizer_calls] in Hrun.
  rewrite (patch_metadata_run m n (export m)) in Hrun;
    [|cbn [fs]; apply lookup_insert_eq|done].
  injection Hrun as <-. cbn [fs tokenizer_calls]. by rewrite <- app_assoc.
Qed.

Lemma main_ok_export (m : EncDecCTCModel) (dir : string) (w w' : world) :
  main m dir w = (Ok (), w') → export_error m = None.
Proof.
  unfold main. intros Hrun.
  apply bind_ok_inv in Hrun as ([] & w1 & _ & Hrun).
  rewrite bind_run in Hrun. unfold export_model in Hrun.
  by destruct (export_error m) as [e|].
Qed.

(** A model that can emit its vocabulary gets through the whole run,
    provided the exporter does. *)
Lemma main_run (m : EncDecCTCModel) (dir : string) (w : world) :
  can_emit m → export_error m = None → ∃ w', main m dir w = (Ok (), w').
Proof.
  intros Hm Hexp. destruct (can_emit_raw_count m Hm) as [n Hn]. unfold main.
  rewrite (bind_ok _ _ _ _ _ (write_tokens_run m _ w Hm)).
  rewrite bind_run. unfold export_model. rewrite Hexp.
  unfold onnx_save at 1. cbn [fs tokenizer_calls].
  rewrite (patch_metadata_run m n (export m));
    [by eexists|cbn [fs]; apply lookup_insert_eq|done].
Qed.

Lemma write_tokens_ok_can_emit (m : EncDecCTCModel) (path : string) (w w' : world) :
  write_tokens m path w = (Ok (), w') → can_emit m.
Proof.
  rewrite write_tokens_branch. unfold can_emit. intros Hrun.
  destruct (tokenizer m) as [| |t] eqn:Ht.
  1,2: destruct (cfg_labels m) as [| |labels] eqn:Hl; [| |by eexists];
       by rewrite write_char_tokens_no_labels in Hrun by (rewrite Hl; done).
  by eapply write_bpe_tokens_inv.
Qed.

Lemma count_lines_replace_special (x : string) :
  count_lines x = 0%nat → count_lines (replace_special x) = 0%nat.
Proof. intros Hx. unfold replace_special. by destruct (String.eqb x " "). Qed.

Lemma plain_vocabulary_table (m : EncDecCTCModel) :
  can_emit m → plain_vocabulary m →
  ∀ e, e ∈ tokens_table m → count_lines e.1 = 0%nat.
Proof.
  unfold can_emit, plain_vocabulary, tokens_table.
  destruct (tokenizer m) as [| |t].
  1,2: intros [labels Hl] Hplain e He; rewrite Hl in He; unfold char_table in He;
       apply elem_of_app in He as [He|He];
       [ destruct e as [x i]; apply elem_of_zip_l in He; by eapply Hplain
       | by apply list_elem_of_singleton in He as -> ].
  intros Hall [_ Hplain] e He. unfold bpe_table in He.
  apply elem_of_app in He as [He|He].
  - apply list_elem_of_fmap in He as (i & -> & Hi). apply elem_of_seqZ in Hi.
    destruct (Hall i) as [x Hx]; [lia|]. unfold bpe_entry. rewrite Hx. cbn [fst default from_option].
    apply count_lines_replace_special. apply (Hplain i); [lia|done].
  - by apply list_elem_of_singleton in He as ->.
Qed.

Lemma plain_vocabulary_size (m : EncDecCTCModel) (n : Z) :
  plain_vocabulary m → raw_count m = Some n → 0 ≤ n.
Proof.
  unfold plain_vocabulary, raw_count. destruct (tokenizer m) as [| |t].
  1,2: intros _ Hraw; destruct (cfg_labels m) as [| |labels]; [discriminate..|];
       injection Hraw as <-; unfold len; lia.
  intros [Hn _] Hraw. by injection Hraw as <-.
Qed.

(** C9 (amended): for every run in which both files are produced from
    the same model, provided that no token text holds a line feed and
    that the size the tokenizer reports is not negative, the [vocab_size]
    entry stored in the exported graph is the number of lines of the
    tokens file, in decimal; both are the raw vocabulary count plus
    one. *)
Theorem C9_vocab_size_is_line_count (m : EncDecCTCModel) (dir : string) (w w' : world) :
  main m dir w = (Ok (), w') →
  plain_vocabulary m →
  ∃ (c : string) (p : ModelProto) (rest : list StringStringEntryProto) (n : Z),
    fs w' !! path_join dir "tokens.txt" = Some (TextFile c)
    ∧ fs w' !! path_join dir "model.onnx" = Some (OnnxFile p)
    ∧ metadata_props p
      = metadata_props (export m)
        ++ MkEntry "vocab_size" (pretty (Z.of_nat (count_lines c))) :: rest
    ∧ (∀ e, e ∈ rest → key e ≠ "vocab_size")
    ∧ raw_count m = Some n
    ∧ Z.of_nat (count_lines c) = n + 1.
Proof.
  intros Hrun Hplain.
  assert (can_emit m) as Hemit.
  { pose proof Hrun as Hrun'. unfold main in Hrun'.
    apply bind_ok_inv in Hrun' as ([] & w0 & Htok & _).
    by eapply write_tokens_ok_can_emit. }
  apply main_ok in Hrun as (n & Hraw & ->).
  pose proof (plain_vocabulary_size m n Hplain Hraw) as Hn.
  destruct (tokens_table_shape m n Hraw Hn) as (real & Htb & Hlen & _).
  assert (Z.of_nat (count_lines (render (tokens_table m))) = n + 1) as Hcount.
  { rewrite count_lines_render by (by apply plain_vocabulary_table).
    rewrite Htb, length_app. unfold len in Hlen. cbn [length]. lia. }
  eexists (render (tokens_table m)), (patched m n (export m)), _, n.
  cbn [fs]. split_and!.
  - rewrite !lookup_insert_ne by (apply not_eq_sym, tokens_path_ne_model_path).
    apply lookup_insert_eq.
  - apply lookup_insert_eq.
  - rewrite Hcount. reflexivity.
  - intros e He. elem_of_cases He; done.
  - done.
  - done.
Qed.

Lemma C9_vocab_size_is_line_count_witness :
  let m := bpe_model ["a"; " "; "c"] in
  let w' := (main m "out" empty_world).2 in
  main m "out" empty_world = (Ok (), w')
  ∧ plain_vocabulary m
  ∧ ∃ (c : string) (p : ModelProto) (rest : list StringStringEntryProto) (n : Z),
      fs w' !! path_join "out" "tokens.txt" = Some (TextFile c)
      ∧ fs w' !! path_join "out" "model.onnx" = Some (OnnxFile p)
      ∧ metadata_props p
        = metadata_props (export m)
          ++ MkEntry "vocab_size" (pretty (Z.of_nat (count_lines c))) :: rest
      ∧ (∀ e, e ∈ rest → key e ≠ "vocab_size")
      ∧ raw_count m = Some n
      ∧ Z.of_nat (count_lines c) = n + 1.
Proof.
  intros m w'.
  assert (main m "out" empty_world = (Ok (), w')) as Hrun by (vm_compute; reflexivity).
  assert (plain_vocabulary m) as Hplain.
  { split; [vm_compute; discriminate|]. intros i x Hi.
    change (vocab_size (synthetic_tokenizer ["a"; " "; "c"])) with 3 in Hi.
    assert (i = 0 ∨ i = 1 ∨ i = 2) as [-> | [-> | ->]] by lia;
      intros [= <-]; reflexivity. }
  split; [exact Hrun|]. split; [exact Hplain|].
  exact (C9_vocab_size_is_line_count m "out" empty_world w' Hrun Hplain).
Defined.

(** C9 without the amendment fails for a character model one of whose
    labels is a line feed: the run completes, the tokens file has three
    lines, and the [vocab_size] entry is "2". *)
Lemma C9_counterexample_line_feed_label :
  let m := char_model [nl] in
  let w' := (main m "out" empty_world).2 in
  main m "out" empty_world = (Ok (), w')
  ∧ ∃ (c : string) (p : ModelProto),
      fs w' !! path_join "out" "tokens.txt" = Some (TextFile c)
      ∧ fs w' !! path_join "out" "model.onnx" = Some (OnnxFile p)
      ∧ count_lines c = 3%nat
      ∧ lines c = [""; " 0"; "<blk> 1"]
      ∧ head (metadata_props p) = Some (MkEntry "vocab_size" "2")
      ∧ raw_count m = Some 1
      ∧ pretty (Z.of_nat (count_lines c)) ≠ "2".
Proof.
  intros m w'. split; [by vm_compute|].
  exists (nl +:+ " 0" +:+ nl +:+ "<blk> 1" +:+ nl),
         (patched m 1 empty_graph).
  split_and!; by vm_compute.
Qed.

(** * Further properties of the script *)

(** ** Loops over a split list *)

Lemma for_app {A : Type} (xs ys : list A) (body : A → M unit) (w : world) :
  for_ (xs ++ ys) body w = match for_ xs body w with
                           | (Ok _, w1) => for_ ys body w1
                           | (Raise e, w1) => (Raise e, w1)
                           end.
Proof.
  revert w. induction xs as [|x xs IH]; intros w; [done|].
  cbn [app]. rewrite !for_cons. destruct (body x w) as [[[]|e] w1]; [apply IH|done].
Qed.

Lemma write_token_line_raise (m : EncDecCTCModel) (t : Tokenizer) (path : string)
    (i : Z) (w : world) :
  tokenizer m = Val t →
  token_text t i = None →
  write_token_line m path i w
  = (Raise (token_error t i), MkWorld (fs w) (tokenizer_calls w ++ [IdsToTokens [i]])).
Proof.
  intros Ht Hx. unfold write_token_line, tokenizer_ids_to_tokens, getattr_tokenizer.
  rewrite Ht. unfold token_text in Hx. unfold token_error.
  rewrite !bind_run. cbn [mret M_mret M_ret log_call lift fs tokenizer_calls].
  rewrite !bind_run. cbn [log_call lift fs tokenizer_calls].
  by destruct (ids_to_tokens t [i]) as [[|y toks]|e].
Qed.

(** ** Runs that stop half way *)

Lemma write_bpe_tokens_stops (m : EncDecCTCModel) (t : Tokenizer) (path : string)
    (k : Z) (w : world) :
  tokenizer m = Val t →
  0 ≤ k < vocab_size t →
  (∀ i, 0 ≤ i < k → is_Some (token_text t i)) →
  token_text t k = None →
  write_bpe_tokens m path w
  = (Raise (token_error t k),
     MkWorld (<[path := TextFile (render (bpe_entry t <$> seqZ 0 k))]> (fs w))
             (tokenizer_calls w
              ++ GetVocabSize :: ((λ i, IdsToTokens [i]) <$> seqZ 0 (k + 1)))).
Proof.
  intros Ht Hk Hall Hfail. unfold write_bpe_tokens.
  rewrite (bind_ok _ _ _ _ _ (tokenizer_vocab_size_run m t w Ht)).
  rewrite bind_run, open_w_run. cbn [fs tokenizer_calls].
  rewrite bind_run. unfold range.
  replace (vocab_size t) with (k + (vocab_size t - k)) at 1 by lia.
  rewrite seqZ_app by lia. rewrite (seqZ_cons (0 + k)) by lia.
  rewrite for_app.
  rewrite (for_token_lines_run m t) by (try done; intros i Hi; apply Hall; set_solver).
  rewrite for_cons. replace (0 + k) with k by lia.
  rewrite (write_token_line_raise m t path k) by done.
  cbn [fs tokenizer_calls]. do 2 f_equal.
  rewrite seqZ_app by lia. rewrite fmap_app.
  replace (0 + k) with k by lia. rewrite (seqZ_cons k 1) by lia.
  rewrite (seqZ_nil (Z.succ k)) by lia. cbn [fmap list_fmap].
  by rewrite <- !app_assoc.
Qed.

Lemma main_raise_in_write_tokens (m : EncDecCTCModel) (dir : string) (w w' : world)
    (e : exn) :
  write_tokens m (path_join dir "tokens.txt") w = (Raise e, w') →
  main m dir w = (Raise e, w').
Proof. intros H. unfold main. by rewrite bind_run, H. Qed.

(** X1: a run that completes has had a vocabulary to emit and an
    exporter that did not fail: the model has a tokenizer that answered
    every id below its vocabulary size with at least one text, or it has
    no tokenizer and a label list.  (The converse would need every file
    operation and the exporter to succeed, which the script does not
    decide.) *)
Theorem X1_completed_run_had_vocabulary (m : EncDecCTCModel) (dir : string)
    (w w' : world) :
  main m dir w = (Ok (), w') →
  export_error m = None
  ∧ match tokenizer m with
    | Val t => ∀ i, 0 ≤ i < vocab_size t → ∃ x rest, ids_to_tokens t [i] = Ok (x :: rest)
    | Absent | IsNone => ∃ labels, cfg_labels m = Val labels
    end.
Proof.
  intros Hrun. split; [by eapply main_ok_export|].
  unfold main in Hrun. apply bind_ok_inv in Hrun as ([] & w1 & Htok & _).
  apply write_tokens_ok_can_emit in Htok. unfold can_emit in Htok.
  destruct (tokenizer m) as [| |t]; [done..|].
  intros i Hi. destruct (Htok i Hi) as [x Hx]. unfold token_text in Hx.
  destruct (ids_to_tokens t [i]) as [[|y rest]|e]; [done| |done].
  injection Hx as ->. eauto.
Qed.

Lemma X1_completed_run_had_vocabulary_witness :
  let m := bpe_model ["a"; " "; "c"] in
  let w' := (main m "out" empty_world).2 in
  main m "out" empty_world = (Ok (), w')
  ∧ export_error m = None
  ∧ match tokenizer m with
    | Val t => ∀ i, 0 ≤ i < vocab_size t → ∃ x rest, ids_to_tokens t [i] = Ok (x :: rest)
    | Absent | IsNone => ∃ labels, cfg_labels m = Val labels
    end.
Proof.
  intros m w'.
  assert (main m "out" empty_world = (Ok (), w')) as Hrun by (vm_compute; reflexivity).
  split; [exact Hrun|].
  exact (X1_completed_run_had_vocabulary m "out" empty_world w' Hrun).
Defined.

(** X2: when the tokenizer answers the ids below [k] and has no text for
    id [k] (an exception of its own, or an empty answer), the run stops
    with that exception; the tokens file is left holding the first [k]
    lines without the [<blk>] line, the tokenizer has been asked for the
    ids 0..k, and the graph file has not been touched. *)
Theorem X2_tokenizer_failure_leaves_prefix (m : EncDecCTCModel) (t : Tokenizer)
    (dir : string) (k : Z) (w : world) :
  tokenizer m = Val t →
  0 ≤ k < vocab_size t →
  (∀ i, 0 ≤ i < k → is_Some (token_text t i)) →
  token_text t k = None →
  ∃ w',
    main m dir w = (Raise (token_error t k), w')
    ∧ fs w' !! path_join dir "tokens.txt"
      = Some (TextFile (render (bpe_entry t <$> seqZ 0 k)))
    ∧ length (bpe_entry t <$> seqZ 0 k) = Z.to_nat k
    ∧ fs w' !! path_join dir "model.onnx" = fs w !! path_join dir "model.onnx"
    ∧ tokenizer_calls w'
      = tokenizer_calls w ++ GetVocabSize :: ((λ i, IdsToTokens [i]) <$> seqZ 0 (k + 1)).
Proof.
  intros Ht Hk Hall Hfail. eexists. split.
  - apply main_raise_in_write_tokens. rewrite write_tokens_branch, Ht.
    by apply (write_bpe_tokens_stops m t _ k).
  - cbn [fs tokenizer_calls]. split_and!.
    + apply lookup_insert_eq.
    + by rewrite length_fmap, length_seqZ.
    + by rewrite lookup_insert_ne by apply tokens_path_ne_model_path.
    + done.
Qed.

Lemma X2_tokenizer_failure_leaves_prefix_witness :
  tokenizer short_model = Val short_tokenizer
  ∧ 0 ≤ 2 < vocab_size short_tokenizer
  ∧ (∀ i, 0 ≤ i < 2 → is_Some (token_text short_tokenizer i))
  ∧ token_text short_tokenizer 2 = None
  ∧ ∃ w',
      main short_model "out" empty_world = (Raise (token_error short_tokenizer 2), w')
      ∧ fs w' !! path_join "out" "tokens.txt"
        = Some (TextFile (render (bpe_entry short_tokenizer <$> seqZ 0 2)))
      ∧ length (bpe_entry short_tokenizer <$> seqZ 0 2) = Z.to_nat 2
      ∧ fs w' !! path_join "out" "model.onnx"
        = fs empty_world !! path_join "out" "model.onnx"
      ∧ tokenizer_calls w'
        = tokenizer_calls empty_world
          ++ GetVocabSize :: ((λ i, IdsToTokens [i]) <$> seqZ 0 (2 + 1)).
Proof.
  assert (∀ i, 0 ≤ i < 2 → is_Some (token_text short_tokenizer i)) as Hall.
  { intros i Hi. assert (i = 0 ∨ i = 1) as [-> | ->] by lia; by eexists. }
  assert (0 ≤ 2 < vocab_size short_tokenizer) as Hk
    by (vm_compute; split; [discriminate|reflexivity]).
  split; [reflexivity|]. split; [exact Hk|]. split; [exact Hall|]. split; [reflexivity|].
  exact (X2_tokenizer_failure_leaves_prefix short_model short_tokenizer "out" 2
           empty_world eq_refl Hk Hall eq_refl).
Defined.

(** The stopped run of [short_model], evaluated: two lines, no blank. *)
Example short_model_run :
  main short_model "out" empty_world
  = (Raise IndexError,
     MkWorld {[ "out/tokens.txt" := TextFile (text_of_lines ["a 0"; "b 1"]) ]}
             [GetVocabSize; IdsToTokens [0]; IdsToTokens [1]; IdsToTokens [2]]).
Proof. vm_compute. reflexivity. Qed.

(** X3: for a model without a tokenizer (missing or [None]) whose
    configuration has no usable label list, the run fails before anything
    is written, because the labels are read before the tokens file is
    opened: with [AttributeError] when the configuration has no [labels]
    key, with [TypeError] when the key holds [None].  The world is
    exactly as it was. *)
Theorem X3_no_labels_fails_before_any_write (m : EncDecCTCModel) (dir : string)
    (w : world) :
  tokenizer m = Absent ∨ tokenizer m = IsNone →
  cfg_labels m = Absent ∨ cfg_labels m = IsNone →
  main m dir w
  = (Raise (match cfg_labels m with IsNone => TypeError | _ => AttributeError end), w).
Proof.
  intros Htok Hl. apply main_raise_in_write_tokens.
  rewrite write_tokens_branch.
  assert (∀ labels, cfg_labels m ≠ Val labels) as Hno
    by (intros labels; by destruct Hl as [-> | ->]).
  destruct Htok as [-> | ->]; by apply write_char_tokens_no_labels.
Qed.

Lemma X3_no_labels_fails_before_any_write_witness :
  (tokenizer none_labels_model = Absent ∨ tokenizer none_labels_model = IsNone)
  ∧ (cfg_labels none_labels_model = Absent ∨ cfg_labels none_labels_model = IsNone)
  ∧ main none_labels_model "out" exported_world
    = (Raise (match cfg_labels none_labels_model with
              | IsNone => TypeError
              | _ => AttributeError
              end), exported_world).
Proof.
  split; [right; reflexivity|]. split; [right; reflexivity|].
  apply (X3_no_labels_fails_before_any_write none_labels_model "out" exported_world).
  - right; reflexivity.
  - right; reflexivity.
Defined.

(** An exporter that fails stops the run after the tokens file is
    complete and before any graph is written. *)
Example failing_export_run :
  main failing_export_model "out" empty_world
  = (Raise ValueError,
     MkWorld {[ "out/tokens.txt" := TextFile (text_of_lines ["x 0"; "y 1"; "<blk> 2"]) ]}
             []).
Proof. vm_compute. reflexivity. Qed.

(** The two cases, evaluated. *)
Example missing_labels_run :
  main bare_model "out" exported_world = (Raise AttributeError, exported_world).
Proof. vm_compute. reflexivity. Qed.

Example none_labels_run :
  main none_labels_model "out" exported_world = (Raise TypeError, exported_world).
Proof. vm_compute. reflexivity. Qed.

(** X4: the patch step saves the graph last (line 106), so what fails
    before that leaves every file as it was: with no file at the path
    the load fails with [FileNotFoundError]; with a graph loaded and a
    model that has neither a tokenizer nor a usable label list, the
    vocabulary size cannot be computed, and the step fails with
    [AttributeError] (no [labels] key) or [TypeError] ([labels] is
    [None]) without saving. *)
Theorem X4_patch_fails_before_saving (m : EncDecCTCModel) (path : string) (w : world) :
  (fs w !! path = None →
   patch_metadata m path w = (Raise FileNotFoundError, w))
  ∧ (∀ p, fs w !! path = Some (OnnxFile p) →
       tokenizer m = Absent ∨ tokenizer m = IsNone →
       cfg_labels m = Absent ∨ cfg_labels m = IsNone →
       patch_metadata m path w
       = (Raise (match cfg_labels m with IsNone => TypeError | _ => AttributeError end),
          w)).
Proof.
  split.
  - intros Hp. unfold patch_metadata. rewrite bind_run.
    unfold onnx_load at 1. by rewrite Hp.
  - intros p Hp Htok Hl. unfold patch_metadata. rewrite bind_run.
    unfold onnx_load at 1. rewrite Hp.
    assert (raw_count m = None) as Hraw
      by (unfold raw_count; destruct Htok as [-> | ->]; by destruct Hl as [-> | ->]).
    by rewrite bind_run, get_vocab_size_fail.
Qed.

Lemma X4_patch_fails_before_saving_witness :
  fs exported_world !! "model.onnx" = Some (OnnxFile empty_graph)
  ∧ (tokenizer none_labels_model = Absent ∨ tokenizer none_labels_model = IsNone)
  ∧ (cfg_labels none_labels_model = Absent ∨ cfg_labels none_labels_model = IsNone)
  ∧ patch_metadata none_labels_model "model.onnx" exported_world
    = (Raise (match cfg_labels none_labels_model with
              | IsNone => TypeError
              | _ => AttributeError
              end), exported_world).
Proof.
  split; [reflexivity|]. split; [right; reflexivity|]. split; [right; reflexivity|].
  apply (proj2 (X4_patch_fails_before_saving none_labels_model "model.onnx" exported_world)
           empty_graph).
  - reflexivity.
  - right; reflexivity.
  - right; reflexivity.
Defined.

(** The three failures, evaluated. *)
Example patch_without_file :
  patch_metadata configured_model "model.onnx" empty_world
  = (Raise FileNotFoundError, empty_world).
Proof. vm_compute. reflexivity. Qed.

Example patch_without_labels_key :
  patch_metadata bare_model "model.onnx" exported_world
  = (Raise AttributeError, exported_world).
Proof. vm_compute. reflexivity. Qed.

Example patch_with_none_labels :
  patch_metadata none_labels_model "model.onnx" exported_world
  = (Raise TypeError, exported_world).
Proof. vm_compute. reflexivity. Qed.

(** X5: running the whole script again on the files it has produced
    completes and leaves exactly the same files: the tokens file is
    truncated and rewritten, and the graph is exported afresh before it is
    patched, so a second run does not duplicate the metadata. *)
Theorem X5_second_run_same_files (m : EncDecCTCModel) (dir : string) (w w1 : world) :
  main m dir w = (Ok (), w1) →
  ∃ w2, main m dir w1 = (Ok (), w2) ∧ fs w2 = fs w1.
Proof.
  intros Hrun1.
  assert (can_emit m) as Hm.
  { pose proof Hrun1 as Hrun. unfold main in Hrun.
    apply bind_ok_inv in Hrun as ([] & w0 & Htok & _).
    by eapply write_tokens_ok_can_emit. }
  pose proof (main_ok_export m dir w w1 Hrun1) as Hexp.
  destruct (main_run m dir w1 Hm Hexp) as [w2 Hrun2]. exists w2. split; [done|].
  apply main_ok in Hrun1 as (n & Hn & ->).
  apply main_ok in Hrun2 as (n' & Hn' & ->).
  assert (n' = n) as -> by congruence.
  cbn [fs]. apply map_eq. intros q.
  rewrite !lookup_insert. by repeat case_decide.
Qed.

Lemma X5_second_run_same_files_witness :
  let m := bpe_model ["a"; " "; "c"] in
  let w1 := (main m "out" exported_world).2 in
  main m "out" exported_world = (Ok (), w1)
  ∧ ∃ w2, main m "out" w1 = (Ok (), w2) ∧ fs w2 = fs w1.
Proof.
  intros m w1.
  assert (main m "out" exported_world = (Ok (), w1)) as Hrun by (vm_compute; reflexivity).
  split; [exact Hrun|].
  exact (X5_second_run_same_files m "out" exported_world w1 Hrun).
Defined.

(** ** Which files a computation can touch *)

Lemma touches_only_ret {A : Type} (paths : list string) (a : A) :
  touches_only paths (mret a : M A).
Proof. by intros w q _. Qed.

Lemma touches_only_raise {A : Type} (paths : list string) (e : exn) :
  touches_only paths (raise e : M A).
Proof. by intros w q _. Qed.

Lemma touches_only_lift {A : Type} (paths : list string) (r : res A) :
  touches_only paths (lift r).
Proof. by intros w q _. Qed.

Lemma touches_only_log_call (paths : list string) (c : api_call) :
  touches_only paths (log_call c).
Proof. by intros w q _. Qed.

Lemma touches_only_bind {A B : Type} (paths : list string) (c : M A) (f : A → M B) :
  touches_only paths c → (∀ a, touches_only paths (f a)) →
  touches_only paths (c ≫= f).
Proof.
  intros Hc Hf w q Hq. rewrite bind_run. specialize (Hc w q Hq).
  destruct (c w) as [[a|e] w1]; cbn [snd] in *; [|done].
  by rewrite (Hf a w1 q Hq).
Qed.

Lemma touches_only_for {A : Type} (paths : list string) (xs : list A) (body : A → M unit) :
  (∀ x, touches_only paths (body x)) → touches_only paths (for_ xs body).
Proof.
  intros Hbody. induction xs as [|x xs IH]; [apply touches_only_ret|].
  cbn [for_]. apply touches_only_bind; [apply Hbody|by intros _].
Qed.

Lemma touches_only_for_acc {A S : Type} (paths : list string) (xs : list A) (s : S)
    (body : S → A → M S) :
  (∀ s x, touches_only paths (body s x)) → touches_only paths (for_acc xs s body).
Proof.
  intros Hbody. revert s. induction xs as [|x xs IH]; intros s; [apply touches_only_ret|].
  cbn [for_acc]. apply touches_only_bind; [apply Hbody|apply IH].
Qed.

Lemma touches_only_open_w (paths : list string) (path : string) :
  path ∈ paths → touches_only paths (open_w path).
Proof.
  intros Hin w q Hq. cbn. rewrite lookup_insert_ne; [done|]. by intros ->.
Qed.

Lemma touches_only_write (paths : list string) (path s : string) :
  path ∈ paths → touches_only paths (write path s).
Proof.
  intros Hin w q Hq. unfold write.
  destruct (fs w !! path) as [[c|p]|]; cbn [snd fs]; [|done..].
  rewrite lookup_insert_ne; [done|]. by intros ->.
Qed.

Lemma touches_only_onnx_save (paths : list string) (model : ModelProto) (path : string) :
  path ∈ paths → touches_only paths (onnx_save model path).
Proof.
  intros Hin w q Hq. cbn. rewrite lookup_insert_ne; [done|]. by intros ->.
Qed.

Lemma touches_only_onnx_load (paths : list string) (path : string) :
  touches_only paths (onnx_load path).
Proof. intros w q _. unfold onnx_load. by destruct (fs w !! path) as [[[|ch c]|p]|]. Qed.

Lemma touches_only_getattr_tokenizer (paths : list string) (m : EncDecCTCModel) :
  touches_only paths (getattr_tokenizer m).
Proof. intros w q _. unfold getattr_tokenizer. by destruct (tokenizer m). Qed.

Lemma touches_only_get_labels (paths : list string) (m : EncDecCTCModel) :
  touches_only paths (get_labels m).
Proof. intros w q _. unfold get_labels. by destruct (cfg_labels m). Qed.

Lemma touches_only_index0 {A : Type} (paths : list string) (l : list A) :
  touches_only paths (index0 l).
Proof. intros w q _. by destruct l. Qed.

Create HintDb frame discriminated.

#[local] Hint Resolve touches_only_ret touches_only_raise touches_only_lift
  touches_only_log_call touches_only_bind touches_only_for touches_only_for_acc
  touches_only_open_w touches_only_write touches_only_onnx_save
  touches_only_onnx_load touches_only_getattr_tokenizer touches_only_get_labels
  touches_only_index0 : frame.

Lemma touches_only_tokenizer_is_set (paths : list string) (m : EncDecCTCModel) :
  touches_only paths (tokenizer_is_set m).
Proof. intros w q _. by rewrite tokenizer_is_set_run. Qed.

Lemma touches_only_tokenizer_vocab_size (paths : list string) (m : EncDecCTCModel) :
  touches_only paths (tokenizer_vocab_size m).
Proof.
  unfold tokenizer_vocab_size. apply touches_only_bind; [auto with frame|].
  intros [t|]; auto with frame.
Qed.

Lemma touches_only_tokenizer_ids_to_tokens (paths : list string) (m : EncDecCTCModel)
    (ids : list Z) :
  touches_only paths (tokenizer_ids_to_tokens m ids).
Proof.
  unfold tokenizer_ids_to_tokens. apply touches_only_bind; [auto with frame|].
  intros [t|]; auto with frame.
Qed.

#[local] Hint Resolve touches_only_tokenizer_is_set touches_only_tokenizer_vocab_size
  touches_only_tokenizer_ids_to_tokens : frame.

Lemma touches_only_write_tokens (paths : list string) (m : EncDecCTCModel) (path : string) :
  path ∈ paths → touches_only paths (write_tokens m path).
Proof.
  intros Hin. unfold write_tokens. apply touches_only_bind; [auto with frame|].
  intros [|].
  - unfold write_bpe_tokens. apply touches_only_bind; [auto with frame|]. intros n.
    apply touches_only_bind; [auto with frame|]. intros _.
    apply touches_only_bind; [|auto with frame].
    apply touches_only_for. intros i. unfold write_token_line.
    apply touches_only_bind; [auto with frame|]. intros toks.
    apply touches_only_bind; auto with frame.
  - unfold write_char_tokens. apply touches_only_bind; [auto with frame|]. intros labels.
    apply touches_only_bind; [auto with frame|]. intros _.
    apply touches_only_bind; [|auto with frame].
    apply touches_only_for. auto with frame.
Qed.

Lemma touches_only_add_entry (paths : list string) (model : ModelProto)
    (kv : string * Py.value) :
  touches_only paths (add_entry model kv).
Proof. unfold add_entry. apply touches_only_bind; auto with frame. Qed.

Lemma touches_only_get_vocab_size (paths : list string) (m : EncDecCTCModel) :
  touches_only paths (get_vocab_size m).
Proof.
  unfold get_vocab_size. apply touches_only_bind; [auto with frame|].
  intros [|]; apply touches_only_bind; auto with frame.
Qed.

Lemma touches_only_patch_metadata (paths : list string) (m : EncDecCTCModel)
    (path : string) :
  path ∈ paths → touches_only paths (patch_metadata m path).
Proof.
  intros Hin. unfold patch_metadata.
  apply touches_only_bind; [auto with frame|]. intros model.
  apply touches_only_bind; [apply touches_only_get_vocab_size|]. intros n.
  apply touches_only_bind; [|auto with frame].
  apply touches_only_for_acc. intros s x. apply touches_only_add_entry.
Qed.

(** X6: whatever their outcome, the vocabulary emission changes no file
    but the tokens file and the metadata patch step changes no file but
    the graph file.  (What the exporter writes in between is its own
    affair and is not part of this statement.) *)
Theorem X6_script_steps_touch_their_own_file (m : EncDecCTCModel) (path : string)
    (w : world) (q : string) :
  q ≠ path →
  fs (write_tokens m path w).2 !! q = fs w !! q
  ∧ fs (patch_metadata m path w).2 !! q = fs w !! q.
Proof.
  intros Hq.
  assert (q ∉ [path]) as Hnot by (intros Hin; elem_of_cases Hin; done).
  split.
  - apply (touches_only_write_tokens [path]); [set_solver|done].
  - apply (touches_only_patch_metadata [path]); [set_solver|done].
Qed.

Lemma X6_script_steps_touch_their_own_file_witness :
  "model.onnx" ≠ "tokens.txt"
  ∧ fs (write_tokens short_model "tokens.txt" exported_world).2 !! "model.onnx"
    = fs exported_world !! "model.onnx"
  ∧ fs (patch_metadata short_model "tokens.txt" exported_world).2 !! "model.onnx"
    = fs exported_world !! "model.onnx".
Proof.
  assert ("model.onnx" ≠ "tokens.txt") as Hq by discriminate.
  split; [exact Hq|].
  exact (X6_script_steps_touch_their_own_file short_model "tokens.txt" exported_world
           "model.onnx" Hq).
Defined.

(** ** The tokenizer protocol of a whole run *)

Lemma main_calls_without_tokenizer (m : EncDecCTCModel) (dir : string) (w : world) :
  tokenizer m = Absent ∨ tokenizer m = IsNone →
  tokenizer_calls (main m dir w).2 = tokenizer_calls w.
Proof.
  intros Htok. unfold main. rewrite bind_run, write_tokens_branch.
  assert (vocab_size_calls m = []) as Hcalls
    by (unfold vocab_size_calls; by destruct Htok as [-> | ->]).
  assert (match tokenizer m with
          | Val _ => write_bpe_tokens m (path_join dir "tokens.txt") w
          | _ => write_char_tokens m (path_join dir "tokens.txt") w
          end = write_char_tokens m (path_join dir "tokens.txt") w) as ->
    by (by destruct Htok as [-> | ->]).
  destruct (cfg_labels m) as [| |labels] eqn:Hl.
  1,2: by rewrite write_char_tokens_no_labels by (rewrite Hl; done).
  assert (raw_count m = Some (len labels)) as Hraw
    by (unfold raw_count; rewrite Hl; by destruct Htok as [-> | ->]).
  rewrite (write_char_tokens_run m labels) by done.
  rewrite bind_run. unfold export_model.
  destruct (export_error m) as [e|]; [done|].
  unfold onnx_save at 1. cbn [fs tokenizer_calls].
  rewrite (patch_metadata_run m (len labels) (export m));
    [|cbn [fs]; apply lookup_insert_eq|done].
  cbn [snd tokenizer_calls]. by rewrite Hcalls, app_nil_r.
Qed.

(** X7: a run on a model without a tokenizer never calls a tokenizer,
    whatever its outcome; a run that completes on a model with a
    tokenizer asks for the vocabulary size, then for each id 0, 1, ...
    once, each time with a one-element list, and finally for the
    vocabulary size again (in the patch step). *)
Theorem X7_tokenizer_call_protocol (m : EncDecCTCModel) (dir : string) (w : world) :
  match tokenizer m with
  | Val t =>
      ∀ w', main m dir w = (Ok (), w') →
        tokenizer_calls w'
        = tokenizer_calls w
          ++ [GetVocabSize]
          ++ ((λ i, IdsToTokens [i]) <$> seqZ 0 (vocab_size t))
          ++ [GetVocabSize]
  | Absent | IsNone => tokenizer_calls (main m dir w).2 = tokenizer_calls w
  end.
Proof.
  destruct (tokenizer m) as [| |t] eqn:Ht.
  - apply main_calls_without_tokenizer. by left.
  - apply main_calls_without_tokenizer. by right.
  - intros w' Hrun. apply main_ok in Hrun as (n & _ & ->).
    unfold emission_calls, vocab_size_calls. rewrite Ht. done.
Qed.

(** ** What the tokenizer branch writes *)

Lemma replace_special_ne_space (x : string) : replace_special x ≠ " ".
Proof. unfold replace_special. by destruct (String.eqb_spec x " "). Qed.

Lemma tokens_table_blank (m : EncDecCTCModel) (n : Z) :
  raw_count m = Some n → ∃ real : table, tokens_table m = real ++ [("<blk>", n)].
Proof.
  unfold raw_count, tokens_table. intros Hraw.
  destruct (tokenizer m) as [| |t].
  1,2: destruct (cfg_labels m) as [| |labels]; [discriminate..|]; injection Hraw as <-;
       by eexists.
  injection Hraw as <-. by eexists.
Qed.

(** X8: in the tokens file of a tokenizer model no real entry is a bare
    space: the entry for id [i] is the tokenizer's text for [i], except
    that the text " " is replaced by the marker of line 59.  (The
    label branch makes no such replacement.) *)
Theorem X8_tokenizer_branch_writes_no_bare_space (m : EncDecCTCModel) (t : Tokenizer)
    (path : string) (w w' : world) :
  tokenizer m = Val t →
  write_tokens m path w = (Ok (), w') →
  ∃ real : table,
    fs w' !! path = Some (TextFile (render (real ++ [("<blk>", vocab_size t)])))
    ∧ (∀ e, e ∈ real → e.1 ≠ " ")
    ∧ (∀ i x, 0 ≤ i < vocab_size t → token_text t i = Some x →
         real !! Z.to_nat i = Some (if decide (x = " ") then space_marker else x, i)).
Proof.
  intros Ht Hrun. apply write_tokens_ok in Hrun as (n & _ & ->).
  exists (bpe_entry t <$> seqZ 0 (vocab_size t)). cbn [fs].
  rewrite lookup_insert_eq. unfold tokens_table. rewrite Ht. split_and!; [done|..].
  - intros e He. apply list_elem_of_fmap in He as (i & -> & _).
    apply replace_special_ne_space.
  - intros i x Hi Hx.
    assert (seqZ 0 (vocab_size t) !! Z.to_nat i = Some i) as Hlook
      by (rewrite lookup_seqZ; lia).
    unfold table. rewrite list_lookup_fmap, Hlook. cbn [fmap option_fmap option_map].
    unfold bpe_entry. rewrite Hx. cbn [default from_option]. unfold replace_special, id.
    destruct (String.eqb_spec x " "); by case_decide.
Qed.

Lemma X8_tokenizer_branch_writes_no_bare_space_witness :
  let m := bpe_model ["a"; " "; "c"] in
  let t := synthetic_tokenizer ["a"; " "; "c"] in
  let w' := (write_tokens m "tokens.txt" empty_world).2 in
  tokenizer m = Val t
  ∧ write_tokens m "tokens.txt" empty_world = (Ok (), w')
  ∧ ∃ real : table,
      fs w' !! "tokens.txt"
      = Some (TextFile (render (real ++ [("<blk>", vocab_size t)])))
      ∧ (∀ e, e ∈ real → e.1 ≠ " ")
      ∧ (∀ i x, 0 ≤ i < vocab_size t → token_text t i = Some x →
           real !! Z.to_nat i = Some (if decide (x = " ") then space_marker else x, i)).
Proof.
  intros m t w'.
  assert (write_tokens m "tokens.txt" empty_world = (Ok (), w')) as Hrun
    by (vm_compute; reflexivity).
  split; [reflexivity|]. split; [exact Hrun|].
  exact (X8_tokenizer_branch_writes_no_bare_space m t "tokens.txt" empty_world w'
           eq_refl Hrun).
Defined.

(** X9: after a run that completes, the id on the [<blk>] line of the
    tokens file is always exactly one less than the [vocab_size] entry of
    the graph, for either kind of model and whatever number the tokenizer
    reports as its vocabulary size. *)
Theorem X9_blank_id_is_vocab_size_minus_one (m : EncDecCTCModel) (dir : string)
    (w w' : world) :
  main m dir w = (Ok (), w') →
  ∃ (real : table) (n : Z) (p : ModelProto) (rest : list StringStringEntryProto),
    fs w' !! path_join dir "tokens.txt"
    = Some (TextFile (render (real ++ [("<blk>", n)])))
    ∧ fs w' !! path_join dir "model.onnx" = Some (OnnxFile p)
    ∧ metadata_props p
      = metadata_props (export m) ++ MkEntry "vocab_size" (str (Int (n + 1))) :: rest
    ∧ (∀ e, e ∈ rest → key e ≠ "vocab_size").
Proof.
  intros Hrun. apply main_ok in Hrun as (n & Hraw & ->).
  destruct (tokens_table_blank m n Hraw) as [real Htb].
  eexists real, n, (patched m n (export m)), _. cbn [fs]. split_and!.
  - rewrite !lookup_insert_ne by (apply not_eq_sym, tokens_path_ne_model_path).
    by rewrite lookup_insert_eq, Htb.
  - apply lookup_insert_eq.
  - reflexivity.
  - intros e He. elem_of_cases He; done.
Qed.

Lemma X9_blank_id_is_vocab_size_minus_one_witness :
  let m := negative_model in
  let w' := (main m "out" empty_world).2 in
  main m "out" empty_world = (Ok (), w')
  ∧ ∃ (real : table) (n : Z) (p : ModelProto) (rest : list StringStringEntryProto),
      fs w' !! path_join "out" "tokens.txt"
      = Some (TextFile (render (real ++ [("<blk>", n)])))
      ∧ fs w' !! path_join "out" "model.onnx" = Some (OnnxFile p)
      ∧ metadata_props p
        = metadata_props (export m) ++ MkEntry "vocab_size" (str (Int (n + 1))) :: rest
      ∧ (∀ e, e ∈ rest → key e ≠ "vocab_size").
Proof.
  intros m w'.
  assert (main m "out" empty_world = (Ok (), w')) as Hrun by (vm_compute; reflexivity).
  split; [exact Hrun|].
  exact (X9_blank_id_is_vocab_size_minus_one m "out" empty_world w' Hrun).
Defined.

(** X10: a tokenizer that reports a vocabulary size of zero or less is
    never asked for a token: the file is the single line
    ["<blk> <vocab_size>"], and the only call is the one for the
    vocabulary size. *)
Theorem X10_empty_vocabulary_asks_for_no_token (m : EncDecCTCModel) (t : Tokenizer)
    (path : string) (w : world) :
  tokenizer m = Val t →
  vocab_size t ≤ 0 →
  write_tokens m path w
  = (Ok (), MkWorld (<[path := TextFile (fmt_line "<blk>" (vocab_size t))]> (fs w))
                    (tokenizer_calls w ++ [GetVocabSize])).
Proof.
  intros Ht Hn. rewrite write_tokens_branch, Ht.
  rewrite (write_bpe_tokens_run m t) by (try done; lia).
  unfold bpe_table. rewrite seqZ_nil by done. cbn [fmap list_fmap app].
  by rewrite render_single.
Qed.

Lemma X10_empty_vocabulary_asks_for_no_token_witness :
  tokenizer (bpe_model []) = Val (synthetic_tokenizer [])
  ∧ vocab_size (synthetic_tokenizer []) ≤ 0
  ∧ write_tokens (bpe_model []) "tokens.txt" empty_world
    = (Ok (), MkWorld (<["tokens.txt" :=
                          TextFile (fmt_line "<blk>" (vocab_size (synthetic_tokenizer [])))]>
                         (fs empty_world))
                      (tokenizer_calls empty_world ++ [GetVocabSize])).
Proof.
  assert (vocab_size (synthetic_tokenizer []) ≤ 0) as Hn by (vm_compute; discriminate).
  split; [reflexivity|]. split; [exact Hn|].
  exact (X10_empty_vocabulary_asks_for_no_token (bpe_model []) (synthetic_tokenizer [])
           "tokens.txt" empty_world eq_refl Hn).
Defined.

(** ** The tokens file can be read back *)

Lemma count_lines_count_char (s : string) : count_lines s = count_char nl_char s.
Proof. induction s as [|c s IH]; [done|]. cbn [count_lines count_char]. by rewrite IH. Qed.

Lemma count_char_app (c : Ascii.ascii) (a b : string) :
  count_char c (a +:+ b) = (count_char c a + count_char c b)%nat.
Proof.
  induction a as [|ch a IH]; [done|].
  unfold String.app in *. cbn [String.append count_char]. rewrite IH.
  by destruct (Ascii.eqb ch c).
Qed.

Lemma count_char_cons_0 (c ch : Ascii.ascii) (s : string) :
  count_char c (String ch s) = 0%nat → ch ≠ c ∧ count_char c s = 0%nat.
Proof.
  cbn [count_char]. destruct (Ascii.eqb_spec ch c); [discriminate|done].
Qed.

Lemma count_char_here (c : Ascii.ascii) (s : string) :
  count_char c (String c s) = S (count_char c s).
Proof. cbn [count_char]. by rewrite Ascii.eqb_refl. Qed.

(** A text is cut in one way only at the first occurrence of [c]. *)
Lemma split_at_first (c : Ascii.ascii) (a a' b b' : string) :
  count_char c a = 0%nat → count_char c a' = 0%nat →
  a +:+ String c b = a' +:+ String c b' → a = a' ∧ b = b'.
Proof.
  unfold String.app. revert a'. induction a as [|x a IH]; intros [|y a'] Ha Ha' Heq;
    cbn [String.append] in Heq.
  - by injection Heq as ->.
  - injection Heq as -> _. by rewrite count_char_here in Ha'.
  - injection Heq as -> _. by rewrite count_char_here in Ha.
  - injection Heq as -> Heq.
    apply count_char_cons_0 in Ha as [_ Ha]. apply count_char_cons_0 in Ha' as [_ Ha'].
    destruct (IH a' Ha Ha' Heq) as [-> ->]. done.
Qed.

(** And in one way only at its last occurrence. *)
Lemma split_at_last (c : Ascii.ascii) (a a' b b' : string) :
  count_char c b = 0%nat → count_char c b' = 0%nat →
  a +:+ String c b = a' +:+ String c b' → a = a' ∧ b = b'.
Proof.
  revert a'. induction a as [|x a IH]; intros [|y a'] Hb Hb' Heq;
    unfold String.app in Heq; cbn [String.append] in Heq.
  - by injection Heq as ->.
  - injection Heq as _ ->. fold (String.app a' (String c b')) in Hb.
    rewrite count_char_app, count_char_here in Hb. lia.
  - injection Heq as _ <-. fold (String.app a (String c b)) in Hb'.
    rewrite count_char_app, count_char_here in Hb'. lia.
  - injection Heq as -> Heq.
    destruct (IH a' Hb Hb' Heq) as [-> ->]. done.
Qed.

Lemma count_char_pretty_N_go (c : Ascii.ascii) (x : N) (s : string) :
  (∀ d, pretty_N_char d ≠ c) →
  count_char c (pretty_N_go x s) = count_char c s.
Proof.
  intros Hc. revert s. induction (N.lt_wf_0 x) as [x _ IH]; intros s.
  destruct (decide (x = 0)%N) as [->|Hx]; [by rewrite pretty_N_go_0|].
  rewrite pretty_N_go_step by lia.
  rewrite IH by (apply N.div_lt; lia).
  cbn [count_char]. by destruct (Ascii.eqb_spec (pretty_N_char (x `mod` 10)) c) as [Heq|];
    [destruct (Hc _ Heq)|].
Qed.

Lemma count_char_pretty_Z (c : Ascii.ascii) (z : Z) :
  (∀ d, pretty_N_char d ≠ c) → c ≠ Ascii.ascii_of_nat 45 →
  count_char c (pretty z) = 0%nat.
Proof.
  intros Hc Hdash.
  assert (∀ x : positive, count_char c (pretty x) = 0%nat) as Hpos.
  { intros x. unfold pretty, pretty_positive, pretty, pretty_N.
    case_decide; [done|]. by rewrite count_char_pretty_N_go. }
  destruct z as [|x|x].
  - specialize (Hc 0%N).
    change (count_char c (String (pretty_N_char 0) "") = 0%nat). cbn [count_char].
    by destruct (Ascii.eqb_spec (pretty_N_char 0) c).
  - apply Hpos.
  - unfold pretty, pretty_Z. rewrite count_char_app, Hpos.
    change (count_char c (String (Ascii.ascii_of_nat 45) "") + 0 = 0)%nat.
    cbn [count_char].
    by destruct (Ascii.eqb_spec (Ascii.ascii_of_nat 45) c) as [Heq|]; [destruct Hdash|].
Qed.

Lemma digits_not_space (d : N) : pretty_N_char d ≠ space_char.
Proof. unfold pretty_N_char. by repeat case_match. Qed.

Lemma digits_not_nl (d : N) : pretty_N_char d ≠ nl_char.
Proof. unfold pretty_N_char. by repeat case_match. Qed.

Lemma fmt_line_shape (token : string) (i : Z) :
  fmt_line token i = token +:+ String space_char (pretty i +:+ nl).
Proof. reflexivity. Qed.

Lemma fmt_line_ends (token : string) (i : Z) :
  fmt_line token i = (token +:+ " " +:+ pretty i) +:+ String nl_char "".
Proof. unfold fmt_line, str, nl. by rewrite !str_app_assoc. Qed.

Lemma numeral_has_no_nl (j : Z) : count_char nl_char (pretty j) = 0%nat.
Proof. apply count_char_pretty_Z; [apply digits_not_nl|done]. Qed.

Lemma numeral_has_no_space (j : Z) : count_char space_char (pretty j +:+ nl) = 0%nat.
Proof.
  rewrite count_char_app, count_char_pretty_Z; [done|apply digits_not_space|done].
Qed.

Lemma numeral_line_inj (j j' : Z) : pretty j +:+ nl = pretty j' +:+ nl → j = j'.
Proof.
  unfold nl. intros Heq.
  apply (split_at_first nl_char) in Heq as [Heq _]; [|apply numeral_has_no_nl..].
  by apply (inj pretty).
Qed.

(** X11: a line of the tokens file determines its token text and its id,
    even when the text itself holds spaces or line feeds: the line is cut
    at its last space, and the decimal numeral after it has none. *)
Theorem X11_line_determines_token_and_id (token token' : string) (i i' : Z) :
  fmt_line token i = fmt_line token' i' → token = token' ∧ i = i'.
Proof.
  rewrite !fmt_line_shape. intros Heq.
  apply split_at_last in Heq as [-> Heq]; [|apply numeral_has_no_space..].
  split; [done|]. by apply numeral_line_inj.
Qed.

Lemma X11_line_determines_token_and_id_witness :
  fmt_line "a b" 7 = fmt_line "a b" 7 ∧ "a b" = "a b" ∧ 7 = 7.
Proof.
  split; [reflexivity|].
  exact (X11_line_determines_token_and_id "a b" "a b" 7 7 eq_refl).
Defined.

Lemma render_cons_shape (e : string * Z) (tb : table) :
  render (e :: tb) = (e.1 +:+ " " +:+ pretty e.2) +:+ String nl_char (render tb).
Proof. by rewrite render_cons, fmt_line_ends, str_app_assoc. Qed.

Lemma render_inj (tb tb' : table) :
  (∀ e, e ∈ tb → count_lines e.1 = 0%nat) →
  (∀ e, e ∈ tb' → count_lines e.1 = 0%nat) →
  render tb = render tb' → tb = tb'.
Proof.
  assert (∀ e tb0, count_char nl_char (render (e :: tb0)) ≠ 0%nat) as Hne.
  { intros e tb0. rewrite render_cons_shape, count_char_app, count_char_here. lia. }
  revert tb'. induction tb as [|e tb IH]; intros [|e' tb'] Hall Hall' Heq.
  - done.
  - apply (f_equal (count_char nl_char)) in Heq. by destruct (Hne e' tb').
  - apply (f_equal (count_char nl_char)) in Heq. by destruct (Hne e tb).
  - rewrite !render_cons_shape in Heq.
    assert (∀ e0 : string * Z, count_lines e0.1 = 0%nat →
              count_char nl_char (e0.1 +:+ " " +:+ pretty e0.2) = 0%nat) as Hhead.
    { intros e0 He0. rewrite !count_char_app, <- count_lines_count_char, He0.
      by rewrite numeral_has_no_nl. }
    apply (split_at_first nl_char) in Heq as [Hline Hrest];
      [|apply Hhead, Hall; by left|apply Hhead, Hall'; by left].
    assert (fmt_line e.1 e.2 = fmt_line e'.1 e'.2) as Hfmt
      by (by rewrite !fmt_line_ends, Hline).
    assert (e.1 = e'.1 ∧ e.2 = e'.2) as [H1 H2].
    { rewrite !fmt_line_shape in Hfmt.
      apply split_at_last in Hfmt as [-> Hfmt]; [|apply numeral_has_no_space..].
      split; [done|]. by apply numeral_line_inj. }
    f_equal.
    + destruct e, e'. cbn in *. by subst.
    + apply IH; [intros e0 He0; apply Hall; by right
                |intros e0 He0; apply Hall'; by right|done].
Qed.

(** X12: when no token text holds a line feed, the tokens file
    determines the vocabulary table: two runs that complete and leave the
    same text in their tokens files have written the same entries, text by
    text and id by id. *)
Theorem X12_tokens_file_determines_table (m1 m2 : EncDecCTCModel) (path1 path2 : string)
    (w1 w2 w1' w2' : world) (c : string) :
  write_tokens m1 path1 w1 = (Ok (), w1') →
  write_tokens m2 path2 w2 = (Ok (), w2') →
  (∀ e, e ∈ tokens_table m1 → count_lines e.1 = 0%nat) →
  (∀ e, e ∈ tokens_table m2 → count_lines e.1 = 0%nat) →
  fs w1' !! path1 = Some (TextFile c) →
  fs w2' !! path2 = Some (TextFile c) →
  tokens_table m1 = tokens_table m2.
Proof.
  intros Hrun1 Hrun2 Hall1 Hall2 Hc1 Hc2.
  apply write_tokens_ok in Hrun1 as (n1 & _ & ->).
  apply write_tokens_ok in Hrun2 as (n2 & _ & ->).
  cbn [fs] in Hc1, Hc2. rewrite lookup_insert_eq in Hc1, Hc2.
  apply render_inj; [done..|]. congruence.
Qed.

Lemma X12_tokens_file_determines_table_witness :
  let m1 := char_model ["x"; "y"] in
  let m2 := configured_model in
  let c := text_of_lines ["x 0"; "y 1"; "<blk> 2"] in
  let w1' := (write_tokens m1 "a.txt" empty_world).2 in
  let w2' := (write_tokens m2 "b.txt" exported_world).2 in
  write_tokens m1 "a.txt" empty_world = (Ok (), w1')
  ∧ write_tokens m2 "b.txt" exported_world = (Ok (), w2')
  ∧ (∀ e, e ∈ tokens_table m1 → count_lines e.1 = 0%nat)
  ∧ (∀ e, e ∈ tokens_table m2 → count_lines e.1 = 0%nat)
  ∧ fs w1' !! "a.txt" = Some (TextFile c)
  ∧ fs w2' !! "b.txt" = Some (TextFile c)
  ∧ tokens_table m1 = tokens_table m2.
Proof.
  intros m1 m2 c w1' w2'.
  assert (write_tokens m1 "a.txt" empty_world = (Ok (), w1')) as H1
    by (vm_compute; reflexivity).
  assert (write_tokens m2 "b.txt" exported_world = (Ok (), w2')) as H2
    by (vm_compute; reflexivity).
  assert (∀ e, e ∈ tokens_table m1 → count_lines e.1 = 0%nat) as H3.
  { intros e He. change (e ∈ [("x", 0); ("y", 1); ("<blk>", 2)]) in He.
    elem_of_cases He; reflexivity. }
  assert (∀ e, e ∈ tokens_table m2 → count_lines e.1 = 0%nat) as H4.
  { intros e He. change (e ∈ [("x", 0); ("y", 1); ("<blk>", 2)]) in He.
    elem_of_cases He; reflexivity. }
  assert (fs w1' !! "a.txt" = Some (TextFile c)) as H5 by (vm_compute; reflexivity).
  assert (fs w2' !! "b.txt" = Some (TextFile c)) as H6 by (vm_compute; reflexivity).
  split_and!; try assumption.
  exact (X12_tokens_file_determines_table m1 m2 "a.txt" "b.txt" empty_world
           exported_world w1' w2' c H1 H2 H3 H4 H5 H6).
Defined.

(** ** The tokenizer has priority over the labels *)

Lemma for_ext {A : Type} (xs : list A) (f g : A → M unit) (w : world) :
  (∀ x w0, f x w0 = g x w0) → for_ xs f w = for_ xs g w.
Proof.
  intros Hfg. revert w. induction xs as [|x xs IH]; intros w; [done|].
  rewrite !for_cons, Hfg. destruct (g x w) as [[[]|e] w1]; [apply IH|done].
Qed.

Lemma write_bpe_tokens_same_tokenizer (m1 m2 : EncDecCTCModel) (path : string) (w : world) :
  tokenizer m1 = tokenizer m2 →
  write_bpe_tokens m1 path w = write_bpe_tokens m2 path w.
Proof.
  intros Heq.
  assert (∀ i w0, write_token_line m1 path i w0 = write_token_line m2 path i w0) as Hline.
  { intros i w0. unfold write_token_line, tokenizer_ids_to_tokens, getattr_tokenizer.
    by rewrite Heq. }
  unfold write_bpe_tokens, tokenizer_vocab_size, getattr_tokenizer. rewrite Heq.
  rewrite !bind_run. destruct (tokenizer m2) as [| |t]; [done..|].
  cbn [mret M_mret M_ret]. rewrite !bind_run.
  destruct (log_call GetVocabSize w) as [[[]|e] w1]; [|done].
  cbn [mret M_mret M_ret]. rewrite !bind_run.
  destruct (open_w path w1) as [[[]|e] w2]; [|done].
  rewrite !bind_run. by rewrite (for_ext _ _ _ _ Hline).
Qed.

(** X13: a model that has a tokenizer uses it and never its label list
    (the comment of line 50): the outcome of the vocabulary emission, the
    files and the [vocab_size] of the patch step are the same whatever
    [m.cfg.labels] holds, also when it is missing. *)
Theorem X13_tokenizer_has_priority_over_labels (m1 m2 : EncDecCTCModel) (t : Tokenizer)
    (path : string) (w : world) :
  tokenizer m1 = Val t →
  tokenizer m2 = Val t →
  write_tokens m1 path w = write_tokens m2 path w
  ∧ get_vocab_size m1 w = get_vocab_size m2 w
  ∧ raw_count m1 = Some (vocab_size t).
Proof.
  intros H1 H2. split_and!.
  - rewrite !write_tokens_branch, H1, H2.
    apply write_bpe_tokens_same_tokenizer. congruence.
  - rewrite (get_vocab_size_run m1 (vocab_size t)), (get_vocab_size_run m2 (vocab_size t));
      unfold raw_count, vocab_size_calls; by rewrite ?H1, ?H2.
  - unfold raw_count. by rewrite H1.
Qed.

Lemma X13_tokenizer_has_priority_over_labels_witness :
  let t := synthetic_tokenizer ["a"; " "; "c"] in
  let m1 := bpe_model ["a"; " "; "c"] in
  let m2 := MkCTC (Val t) (Val ["x"; "y"]) ∅ ∅ empty_graph None in
  tokenizer m1 = Val t
  ∧ tokenizer m2 = Val t
  ∧ write_tokens m1 "tokens.txt" empty_world = write_tokens m2 "tokens.txt" empty_world
  ∧ get_vocab_size m1 empty_world = get_vocab_size m2 empty_world
  ∧ raw_count m1 = Some (vocab_size t).
Proof.
  intros t m1 m2. split; [reflexivity|]. split; [reflexivity|].
  exact (X13_tokenizer_has_priority_over_labels m1 m2 t "tokens.txt" empty_world
           eq_refl eq_refl).
Defined.

(** ** Where the files go *)

Lemma join_parts_snoc (ps : list string) (name : string) :
  ps ≠ [] → join_parts (ps ++ [name]) = join_parts ps +:+ "/" +:+ name.
Proof.
  induction ps as [|x [|y ps] IH]; intros Hne; [done|done|].
  change (x +:+ "/" +:+ join_parts ((y :: ps) ++ [name])
          = (x +:+ "/" +:+ join_parts (y :: ps)) +:+ "/" +:+ name).
  rewrite IH by done. by rewrite !str_app_assoc.
Qed.

Lemma posix_str_truediv (p : Path) (name : string) :
  parts p ≠ [] → posix_str (truediv p name) = path_join (posix_str p) name.
Proof.
  intros Hne. unfold posix_str, truediv, path_join. cbn [anchor parts].
  destruct (parts p) as [|x ps] eqn:Hp; [done|].
  pose proof (join_parts_snoc (x :: ps) name Hne) as Hsnoc.
  destruct (anchor p) as [|a s].
  - cbn [app] in *. by rewrite Hsnoc.
  - by rewrite Hsnoc, !str_app_assoc.
Qed.

Lemma output_dir_parts_ne (h : Host) : parts (output_dir h) ≠ [].
Proof. unfold output_dir, truediv. cbn [parts]. by destruct (parts (models_dir h)). Qed.

(** X14: on a Windows host whose environment has no [LOCALAPPDATA], or
    has it empty, the output directory is the relative path
    [gibb.eri.sh/models/nemo-conformer-ca]: the files go below the
    current working directory, and nothing reports it. *)
Theorem X14_windows_without_localappdata (h : Host) :
  os_name h = "nt" →
  environ h !! "LOCALAPPDATA" = None ∨ environ h !! "LOCALAPPDATA" = Some "" →
  path_of h "" = MkPath "" [] →
  output_dir h = MkPath "" ["gibb.eri.sh"; "models"; "nemo-conformer-ca"]
  ∧ tokens_path h = MkPath "" ["gibb.eri.sh"; "models"; "nemo-conformer-ca"; "tokens.txt"]
  ∧ model_path h = MkPath "" ["gibb.eri.sh"; "models"; "nemo-conformer-ca"; "model.onnx"].
Proof.
  intros Hos Henv Hpath.
  assert (environ_get h "LOCALAPPDATA" "" = "") as Hget
    by (unfold environ_get; by destruct Henv as [-> | ->]).
  unfold tokens_path, model_path, output_dir, models_dir.
  rewrite Hos, Hget, Hpath. done.
Qed.

Lemma X14_windows_without_localappdata_witness :
  let h := windows_host_no_appdata in
  os_name h = "nt"
  ∧ (environ h !! "LOCALAPPDATA" = None ∨ environ h !! "LOCALAPPDATA" = Some "")
  ∧ path_of h "" = MkPath "" []
  ∧ output_dir h = MkPath "" ["gibb.eri.sh"; "models"; "nemo-conformer-ca"]
  ∧ tokens_path h = MkPath "" ["gibb.eri.sh"; "models"; "nemo-conformer-ca"; "tokens.txt"]
  ∧ model_path h = MkPath "" ["gibb.eri.sh"; "models"; "nemo-conformer-ca"; "model.onnx"].
Proof.
  intros h. split; [reflexivity|]. split; [left; reflexivity|]. split; [reflexivity|].
  apply (X14_windows_without_localappdata h); [reflexivity|left; reflexivity|reflexivity].
Defined.

(** X15: on every host whose [os.name] is not "nt" (Linux included) the
    output directory is [Library/Application Support/gibb.eri.sh/models/
    nemo-conformer-ca] below the home directory, whatever the environment
    holds; the two files are distinct entries of it, and their POSIX
    names are those the run writes to when it is given the name of the
    output directory. *)
Theorem X15_posix_output_location (h : Host) :
  os_name h ≠ "nt" →
  output_dir h
  = MkPath (anchor (home h))
           (parts (home h)
            ++ ["Library"; "Application Support"; "gibb.eri.sh"; "models";
                "nemo-conformer-ca"])
  ∧ posix_str (tokens_path h) = path_join (posix_str (output_dir h)) "tokens.txt"
  ∧ posix_str (model_path h) = path_join (posix_str (output_dir h)) "model.onnx"
  ∧ tokens_path h ≠ model_path h.
Proof.
  intros Hos. split_and!.
  - unfold output_dir, models_dir, truediv.
    destruct (String.eqb_spec (os_name h) "nt"); [done|].
    cbn [anchor parts]. by rewrite <- !app_assoc.
  - apply posix_str_truediv, output_dir_parts_ne.
  - apply posix_str_truediv, output_dir_parts_ne.
  - unfold tokens_path, model_path, truediv. intros Heq.
    injection Heq as Heq. by apply app_inj_tail in Heq as [_ ?].
Qed.

Lemma X15_posix_output_location_witness :
  let h := mac_host in
  os_name h ≠ "nt"
  ∧ output_dir h
    = MkPath (anchor (home h))
             (parts (home h)
              ++ ["Library"; "Application Support"; "gibb.eri.sh"; "models";
                  "nemo-conformer-ca"])
  ∧ posix_str (tokens_path h) = path_join (posix_str (output_dir h)) "tokens.txt"
  ∧ posix_str (model_path h) = path_join (posix_str (output_dir h)) "model.onnx"
  ∧ tokens_path h ≠ model_path h.
Proof.
  intros h.
  assert (os_name h ≠ "nt") as Hos by (vm_compute; discriminate).
  split; [exact Hos|].
  exact (X15_posix_output_location h Hos).
Defined.

(** The output directory on the example host, printed. *)
Example mac_output_dir :
  posix_str (tokens_path mac_host)
  = "/Users/me/Library/Application Support/gibb.eri.sh/models/nemo-conformer-ca/tokens.txt".
Proof. reflexivity. Qed.
